(** * callin: speech normalizer, rate limiter and session store

    A shallow embedding of [src/speech-parser.ts], of the helper functions at
    the end of [src/retell.ts], of the schedule route of the Twilio call flow
    and of the session module (sessions, pairing, rate limiting), and of the
    code step of both call flows, followed by the properties of the
    specification that these functions decide and by further properties of
    the code.

    JavaScript strings are modelled as lists of 8-bit code units (Latin-1):
    a transcript with a code unit above 255 is outside the model.  Within
    that range the character classes, case mappings and whitespace of
    ECMAScript are followed. *)

From stdpp Require Import base option list strings gmap.
From Stdlib Require Import Ascii String List NArith ZArith Bool Lia DecimalString.
Import ListNotations.

Local Open Scope list_scope.

(** A JavaScript string: the list of its code units. *)
Abbreviation jsstring := (list ascii).

(** The literal [s] as a JavaScript string. *)
Definition str (s : string) : jsstring := list_ascii_of_string s.

(* ====================================================================== *)
(** ** String primitives of the runtime *)
(* ====================================================================== *)

Module JS.

Definition codeUnit (c : ascii) : N := N_of_ascii c.

Definition between (lo hi : N) (c : ascii) : bool :=
  ((lo <=? codeUnit c) && (codeUnit c <=? hi))%N.

(** [\d] *)
Definition isDigit (c : ascii) : bool := between 48 57 c.
Definition isLower (c : ascii) : bool := between 97 122 c.
Definition isUpper (c : ascii) : bool := between 65 90 c.
(** [a-zA-Z] *)
Definition isLetter (c : ascii) : bool := isLower c || isUpper c.
(** [\w]: letters, digits and the underscore, ASCII only. *)
Definition isWordChar (c : ascii) : bool :=
  isLetter c || isDigit c || (codeUnit c =? 95)%N.
(** [\s], and the characters removed by [trim]: TAB, LF, VT, FF, CR,
    SPACE and NO-BREAK SPACE are the ones below 256. *)
Definition isSpace (c : ascii) : bool :=
  between 9 13 c || (codeUnit c =? 32)%N || (codeUnit c =? 160)%N.

(** Latin-1 capitals with a lower-case partner 32 above: A-Z, and
    U+00C0..U+00DE without the multiplication sign U+00D7. *)
Definition hasLower (c : ascii) : bool :=
  isUpper c || (between 192 222 c && negb (codeUnit c =? 215)%N).
Definition hasUpper (c : ascii) : bool :=
  isLower c || (between 224 254 c && negb (codeUnit c =? 247)%N).

Definition toLowerChar (c : ascii) : ascii :=
  if hasLower c then ascii_of_N (codeUnit c + 32) else c.

(** [String.prototype.toLowerCase] *)
Definition toLowerCase (s : jsstring) : jsstring := map toLowerChar s.

(** [toUpperCase] of a one-character string.  The sharp s (U+00DF) becomes
    the two letters SS.  The micro sign (U+00B5) and the y with diaeresis
    (U+00FF) have capitals above 255; the only use of this function feeds
    a filter that deletes both the capital and the small form, so they are
    left as they are. *)
Definition toUpperChar (c : ascii) : jsstring :=
  if hasUpper c then [ascii_of_N (codeUnit c - 32)]
  else if (codeUnit c =? 223)%N then str "SS"
  else [c].

(** [Canonicalize] of a regular expression with the [i] flag and without
    the [u] flag: the capital when it is one code unit. *)
Definition canonicalize (c : ascii) : ascii :=
  if hasUpper c then ascii_of_N (codeUnit c - 32) else c.

Fixpoint dropWhile (p : ascii -> bool) (s : jsstring) : jsstring :=
  match s with
  | [] => []
  | c :: s' => if p c then dropWhile p s' else s
  end.

Definition trimStart (s : jsstring) : jsstring := dropWhile isSpace s.
Definition trimEnd (s : jsstring) : jsstring := rev (dropWhile isSpace (rev s)).
(** [String.prototype.trim] *)
Definition trim (s : jsstring) : jsstring := trimEnd (trimStart s).

Fixpoint startsWith (kw s : jsstring) : bool :=
  match kw, s with
  | [], _ => true
  | k :: kw', c :: s' => Ascii.eqb k c && startsWith kw' s'
  | _ :: _, [] => false
  end.

(** [s.includes(kw)] *)
Fixpoint includes (s kw : jsstring) : bool :=
  startsWith kw s ||
  match s with
  | [] => false
  | _ :: s' => includes s' kw
  end.

(** [s.slice(0, n)] for [n >= 0] *)
Definition sliceTo (n : nat) (s : jsstring) : jsstring := firstn n s.
(** [s.slice(-n)] for [n > 0]: from index [max (length s - n) 0]. *)
Definition sliceLast (n : nat) (s : jsstring) : jsstring :=
  skipn (length s - n) s.

(** *** Regular expressions

    The fragment used by the parsers, with the backtracking semantics of
    ECMAScript: alternatives are tried left to right, quantifiers are
    greedy, and the first way to match at a position is the match. *)
Inductive regex : Type :=
| Empty
| Char (p : ascii -> bool)
| Seq (r1 r2 : regex)
| Alt (r1 r2 : regex)
| Opt (r : regex)
| Star (p : ascii -> bool)
| WordBoundary.

(** What is left to match after a point: it receives the character before
    the point and the rest of the input. *)
Definition cont (R : Type) : Type := option ascii -> jsstring -> option R.

Definition isWordAt (c : option ascii) : bool :=
  match c with
  | Some x => isWordChar x
  | None => false
  end.

Fixpoint star_loop {R} (p : ascii -> bool) (prev : option ascii)
         (s : jsstring) (k : cont R) : option R :=
  match s with
  | c :: s' =>
      if p c then
        match star_loop p (Some c) s' k with
        | Some r => Some r
        | None => k prev s
        end
      else k prev s
  | [] => k prev s
  end.

Fixpoint rmatch {R} (r : regex) (prev : option ascii) (s : jsstring)
         (k : cont R) : option R :=
  match r with
  | Empty => k prev s
  | Char p =>
      match s with
      | c :: s' => if p c then k (Some c) s' else None
      | [] => None
      end
  | Seq r1 r2 => rmatch r1 prev s (fun prev' s' => rmatch r2 prev' s' k)
  | Alt r1 r2 =>
      match rmatch r1 prev s k with
      | Some x => Some x
      | None => rmatch r2 prev s k
      end
  | Opt r1 =>
      match rmatch r1 prev s k with
      | Some x => Some x
      | None => k prev s
      end
  | Star p => star_loop p prev s k
  | WordBoundary =>
      if xorb (isWordAt prev) (isWordAt (head s)) then k prev s else None
  end.

(** The length of the match of [r] that starts here, if there is one. *)
Definition exec (r : regex) (prev : option ascii) (s : jsstring) : option nat :=
  rmatch r prev s (fun _ rest => Some (length s - length rest)).

(** [s.replace(/r/g, f)] from a position on: [prev] is the character
    before the position and [skip] the number of characters of the last
    match still to pass over.  After an empty match the search moves one
    character on, and that character is kept. *)
Fixpoint replace_from (r : regex) (f : jsstring -> jsstring)
         (prev : option ascii) (skip : nat) (s : jsstring) : jsstring :=
  match skip with
  | S n =>
      match s with
      | [] => []
      | c :: s' => replace_from r f (Some c) n s'
      end
  | O =>
      match exec r prev s with
      | Some (S n) =>
          f (firstn (S n) s) ++
          match s with
          | [] => []
          | c :: s' => replace_from r f (Some c) n s'
          end
      | Some O =>
          f [] ++
          match s with
          | [] => []
          | c :: s' => c :: replace_from r f (Some c) 0 s'
          end
      | None =>
          match s with
          | [] => []
          | c :: s' => c :: replace_from r f (Some c) 0 s'
          end
      end
  end.

(** [s.replace(/r/g, f)] with a replacement computed from the match. *)
Definition replaceWith (r : regex) (f : jsstring -> jsstring) (s : jsstring) : jsstring :=
  replace_from r f None 0 s.

(** [s.replace(/r/g, t)] *)
Definition replaceAll (r : regex) (t : jsstring) (s : jsstring) : jsstring :=
  replaceWith r (fun _ => t) s.

(** Building blocks of the patterns. *)
Fixpoint seqs (rs : list regex) : regex :=
  match rs with
  | [] => Empty
  | [r] => r
  | r :: rs' => Seq r (seqs rs')
  end.

(** [r | r1 | r2 | ...] *)
Fixpoint alts (r : regex) (rs : list regex) : regex :=
  match rs with
  | [] => r
  | r' :: rs' => Alt r (alts r' rs')
  end.

(** One character of a pattern with the [i] flag. *)
Definition chari (x : ascii) : regex :=
  Char (fun c => Ascii.eqb (canonicalize c) (canonicalize x)).
(** One character of a pattern without the [i] flag. *)
Definition char (x : ascii) : regex := Char (Ascii.eqb x).

(** The characters of [w], one after the other, with the [i] flag. *)
Definition lit (w : string) : regex := seqs (map chari (str w)).

(** [\s+] *)
Definition spaces1 : regex := Seq (Char isSpace) (Star isSpace).

(** [\bw\b] with the flags [gi], as [new RegExp(`\\b${w}\\b`, 'gi')]. *)
Definition word (w : string) : regex := seqs [WordBoundary; lit w; WordBoundary].

(** [\b(a|b|...)\b] with the flags [gi]. *)
Definition anyWord (r : regex) (rs : list regex) : regex :=
  seqs [WordBoundary; alts r rs; WordBoundary].

(** [s.replace(/\D/g, '')] *)
Definition stripNonDigits (s : jsstring) : jsstring :=
  replaceAll (Char (fun c => negb (isDigit c))) [] s.

(** [s.split(/\s+/)]: [cur] holds, reversed, the piece being read and
    [inws] tells whether the last character was part of a separator. *)
Fixpoint split_from (cur : jsstring) (inws : bool) (s : jsstring) : list jsstring :=
  match s with
  | [] => [rev cur]
  | c :: s' =>
      if isSpace c then
        if inws then split_from cur true s'
        else rev cur :: split_from [] true s'
      else split_from (c :: cur) false s'
  end.

Definition splitSpaces (s : jsstring) : list jsstring := split_from [] false s.

(** [parts.join(' ')] *)
Fixpoint join (parts : list jsstring) : jsstring :=
  match parts with
  | [] => []
  | [p] => p
  | p :: ps => p ++ " "%char :: join ps
  end.

End JS.

(* ====================================================================== *)
(** ** src/speech-parser.ts *)
(* ====================================================================== *)

Module SpeechParser.
Import JS.

(** [digitPatterns]: each word, as [/\bword\b/gi], with its digit. *)
Definition digitPatterns : list (string * string) :=
  [ ("zero", "0"); ("oh", "0");
    ("one", "1"); ("won", "1");
    ("two", "2"); ("to", "2"); ("too", "2");
    ("three", "3"); ("tree", "3");
    ("four", "4"); ("for", "4"); ("fore", "4");
    ("five", "5");
    ("six", "6");
    ("seven", "7");
    ("eight", "8"); ("ate", "8");
    ("nine", "9"); ("niner", "9") ]%string.

(** [for (const [pattern, digit] of table) converted = converted.replace(pattern, digit)] *)
Definition replaceWords (table : list (string * string)) (s : jsstring) : jsstring :=
  fold_left (fun acc wd => replaceAll (word (fst wd)) (str (snd wd)) acc) table s.

Record ParseResult : Type := mkParseResult {
  success : bool;
  code : option jsstring;
  rawInput : jsstring;
  normalized : option jsstring
}.

(** [/\b(the\s+)?(code\s+is|my\s+code\s+is|it's|its|is)\b/gi] *)
Definition codeFiller : regex :=
  seqs [ WordBoundary;
         Opt (Seq (lit "the") spaces1);
         alts (seqs [lit "code"; spaces1; lit "is"])
              [ seqs [lit "my"; spaces1; lit "code"; spaces1; lit "is"];
                lit "it's"; lit "its"; lit "is" ];
         WordBoundary ].

(** [/\b(um|uh|like|so|yeah|okay|ok)\b/gi] *)
Definition hesitations : regex :=
  anyWord (lit "um") [lit "uh"; lit "like"; lit "so"; lit "yeah"; lit "okay"; lit "ok"].

(** The table [compounds] of [parseCompoundNumbers], in the order of its keys. *)
Definition compounds : list (string * string) :=
  [ ("ten", "10"); ("eleven", "11"); ("twelve", "12"); ("thirteen", "13");
    ("fourteen", "14"); ("fifteen", "15"); ("sixteen", "16");
    ("seventeen", "17"); ("eighteen", "18"); ("nineteen", "19");
    ("twenty", "20"); ("thirty", "30"); ("forty", "40"); ("fifty", "50");
    ("sixty", "60"); ("seventy", "70"); ("eighty", "80"); ("ninety", "90") ]%string.

(** [/(\d)0\s*(\d)/g] *)
Definition tensOnes : regex :=
  seqs [Char isDigit; char "0"; Star isSpace; Char isDigit].

(** The replacement [(_, tens, ones) => `${tens}${ones}`]: the first group
    is the first character of the match and the second group its last. *)
Definition joinTensOnes (m : jsstring) : jsstring :=
  match m, rev m with
  | tens :: _, ones :: _ => [tens; ones]
  | _, _ => []
  end.

Definition parseCompoundNumbers (text : jsstring) : option jsstring :=
  let result := replaceWords compounds text in
  let result := replaceWith tensOnes joinTensOnes result in
  let digits := stripNonDigits result in
  if 4 <=? length digits then Some digits else None.

(** The transcript with the filler phrases removed, in lower case. *)
Definition normalizeCode (speech : jsstring) : jsstring :=
  trim (replaceAll hesitations [] (replaceAll codeFiller [] (toLowerCase (trim speech)))).

(** [x || undefined] *)
Definition orUndefined (x : jsstring) : option jsstring :=
  match x with
  | [] => None
  | _ => Some x
  end.

Definition parseSpokenCode (speech : jsstring) : ParseResult :=
  match speech with
  | [] => mkParseResult false None [] None
  | _ =>
      let rawInput := trim speech in
      let normalized := normalizeCode speech in
      let directDigits := stripNonDigits normalized in
      if length directDigits =? 4 then
        mkParseResult true (Some directDigits) rawInput (Some directDigits)
      else
        let converted := replaceWords digitPatterns normalized in
        let digits := stripNonDigits converted in
        if length digits =? 4 then
          mkParseResult true (Some digits) rawInput (Some digits)
        else
          let compoundResult := parseCompoundNumbers normalized in
          if match compoundResult with
             | Some c => length c =? 4
             | None => false
             end
          then mkParseResult true compoundResult rawInput compoundResult
          else if 4 <? length digits then
            mkParseResult true (Some (sliceTo 4 digits)) rawInput (Some (sliceTo 4 digits))
          else mkParseResult false None rawInput (orUndefined digits)
  end.

(** [/\b(my name is|i'm|i am|it's|this is|call me)\b/gi] *)
Definition introPhrases : regex :=
  anyWord (lit "my name is")
          [lit "i'm"; lit "i am"; lit "it's"; lit "this is"; lit "call me"].

(** [/\b(um|uh|like|so|yeah)\b/gi] *)
Definition nameFillers : regex :=
  anyWord (lit "um") [lit "uh"; lit "like"; lit "so"; lit "yeah"].

(** [word.charAt(0).toUpperCase() + word.slice(1).toLowerCase()] *)
Definition capitalize (w : jsstring) : jsstring :=
  match w with
  | [] => []
  | c :: rest => toUpperChar c ++ toLowerCase rest
  end.

(** The class [[a-zA-Z\s'-]]. *)
Definition isNameChar (c : ascii) : bool :=
  isLetter c || isSpace c || Ascii.eqb c "'" || Ascii.eqb c "-".

(** [name.replace(/[^a-zA-Z\s'-]/g, '')] *)
Definition stripSpecial (s : jsstring) : jsstring :=
  replaceAll (Char (fun c => negb (isNameChar c))) [] s.

(** [name || 'Caller'] *)
Definition orCaller (name : jsstring) : jsstring :=
  match name with
  | [] => str "Caller"
  | _ => name
  end.

Definition sanitizeName (speech : jsstring) : jsstring :=
  match speech with
  | [] => []
  | _ =>
      let name := trim (replaceAll nameFillers [] (replaceAll introPhrases [] (trim speech))) in
      let name := join (map capitalize (splitSpaces name)) in
      let name := sliceTo 100 (stripSpecial name) in
      orCaller name
  end.

(** A keyword table: the canonical keys, in order, each with its keywords. *)
Definition keywordTable : Type := list (string * list string).

(** The two nested loops over [Object.entries(table)]: the key of the first
    entry one of whose keywords [input] includes. *)
Definition firstKey (table : keywordTable) (input : jsstring) : option string :=
  fst <$> find (fun entry => existsb (fun kw => includes input (str kw)) (snd entry)) table.

Definition verticals : keywordTable :=
  [ ("real_estate", ["real estate"; "realestate"; "real-estate"; "property"; "properties"; "realtor"]);
    ("insurance", ["insurance"; "insure"; "policy"; "policies"]);
    ("mortgage", ["mortgage"; "loan"; "loans"; "lending"; "home loan"]);
    ("other", ["other"; "something else"; "different"; "none"]) ]%string.

Definition parseVerticalSelection (speech : jsstring) : option string :=
  let input := trim (toLowerCase speech) in
  firstKey verticals input.

Definition pains : keywordTable :=
  [ ("spam_flags", ["spam"; "flag"; "flagged"; "blocked"; "scam likely"; "spam likely"]);
    ("awkward_delay", ["awkward"; "delay"; "pause"; "waiting"; "silence"; "dead air"]);
    ("low_answer_rates", ["answer"; "rate"; "rates"; "low answer"; "nobody answers"; "pickup"]);
    ("speed", ["speed"; "slow"; "fast"; "quick"; "efficiency"; "time"]) ]%string.

Definition parsePainSelection (speech : jsstring) : option string :=
  let input := trim (toLowerCase speech) in
  firstKey pains input.

Record PhoneParseResult : Type := mkPhoneParseResult {
  phone_success : bool;
  number : option jsstring;
  phone_rawInput : jsstring
}.

(** [/\b(my number is|my phone number is|it's|the number is|call me at)\b/gi] *)
Definition phoneFiller : regex :=
  anyWord (lit "my number is")
          [lit "my phone number is"; lit "it's"; lit "the number is"; lit "call me at"].

(** The digits left after the filler phrases are removed and the digit
    words translated: the local [digits] of [parsePhoneNumber]. *)
Definition phoneDigits (speech : jsstring) : jsstring :=
  let normalized :=
    trim (replaceAll hesitations [] (replaceAll phoneFiller [] (toLowerCase (trim speech)))) in
  let converted := replaceWords digitPatterns normalized in
  stripNonDigits converted.

Definition parsePhoneNumber (speech : jsstring) : PhoneParseResult :=
  match speech with
  | [] => mkPhoneParseResult false None []
  | _ =>
      let rawInput := trim speech in
      let digits := phoneDigits speech in
      if length digits =? 10 then
        mkPhoneParseResult true (Some (str "+1" ++ digits)) rawInput
      else if (length digits =? 11) && bool_decide (head digits = Some "1"%char) then
        mkPhoneParseResult true (Some (str "+" ++ digits)) rawInput
      else if 10 <? length digits then
        let lastTen := sliceLast 10 digits in
        mkPhoneParseResult true (Some (str "+1" ++ lastTen)) rawInput
      else mkPhoneParseResult false None rawInput
  end.

End SpeechParser.

(* ====================================================================== *)
(** ** src/retell.ts: the helper functions of the Retell call flow *)
(* ====================================================================== *)

Module Retell.
Import JS.

Definition sanitizeName (speech : jsstring) : jsstring :=
  match speech with
  | [] => str "Caller"
  | _ =>
      let name := trim (replaceAll SpeechParser.introPhrases [] (trim speech)) in
      let name := join (map SpeechParser.capitalize (splitSpaces name)) in
      let name := sliceTo 100 (SpeechParser.stripSpecial name) in
      SpeechParser.orCaller name
  end.

Definition has (lower : jsstring) (kw : string) : bool := includes lower (str kw).

Definition normalizeVertical (input : jsstring) : string :=
  let lower := toLowerCase input in
  if has lower "real estate" || has lower "realtor" || has lower "property" then "real_estate"
  else if has lower "insurance" || has lower "policy" then "insurance"
  else if has lower "mortgage" || has lower "loan" || has lower "lending" then "mortgage"
  else "other".

Definition normalizePain (input : jsstring) : string :=
  let lower := toLowerCase input in
  if has lower "spam" || has lower "flag" || has lower "blocked" then "spam_flags"
  else if has lower "delay" || has lower "awkward" || has lower "pause" then "awkward_delay"
  else if has lower "answer" || has lower "rate" || has lower "pickup" then "low_answer_rates"
  else if has lower "speed" || has lower "slow" || has lower "fast" then "speed"
  else "other".

(** The words of [handleScheduleAppointment]. *)
Definition yesWords : list string :=
  ["yes"; "yeah"; "sure"; "okay"; "yep"; "absolutely"; "definitely"]%string.

(** [isYes] of [handleScheduleAppointment], from [args.wants_schedule]. *)
Definition isYes (wants_schedule : jsstring) : bool :=
  let wantsSchedule := toLowerCase wants_schedule in
  existsb (fun w => includes wantsSchedule (str w)) yesWords.

(** The types of the events that [handleScheduleAppointment] creates, in
    order; without a session id it creates none. *)
Definition handleScheduleAppointment (sessionId wants_schedule : jsstring) : list string :=
  match sessionId with
  | [] => []
  | _ =>
      if isYes wants_schedule
      then ["schedule_requested"; "appointment_scheduled"]%string
      else ["schedule_declined"]%string
  end.

(** [normalizePhoneNumber]: the digits of [input], as a number with the
    country code; [None] is [null]. *)
Definition normalizePhoneNumber (input : jsstring) : option jsstring :=
  let digits := stripNonDigits input in
  if length digits =? 10 then Some (str "+1" ++ digits)
  else if (length digits =? 11) && bool_decide (head digits = Some "1"%char) then
    Some (str "+" ++ digits)
  else if 10 <? length digits then Some (str "+1" ++ sliceLast 10 digits)
  else None.

Definition maskPhone (phone : jsstring) : jsstring :=
  if length phone <? 4 then str "****" else str "(***) ***-" ++ sliceLast 4 phone.

(** [getDay()] of a calendar day, the days being counted from Thursday,
    1 January 1970: 0 is Sunday and 6 is Saturday. *)
Definition getDay (day : Z) : Z := ((day + 4) mod 7)%Z.

(** The loop [while (getDay() === 0 || getDay() === 6) setDate(getDate() + 1)]
    with [fuel] tests left; [None] when they do not suffice. *)
Fixpoint skipWeekend (fuel : nat) (day : Z) : option Z :=
  match fuel with
  | O => None
  | S fuel' =>
      if (getDay day =? 0)%Z || (getDay day =? 6)%Z
      then skipWeekend fuel' (day + 1)%Z
      else Some day
  end.

(** The day that [getNextBusinessDay] formats, from the day of the clock. *)
Definition getNextBusinessDay (fuel : nat) (today : Z) : option Z :=
  skipWeekend fuel (today + 1)%Z.


End Retell.

(* ====================================================================== *)
(** ** The Twilio call flow: the route [/schedule] *)
(* ====================================================================== *)

Module Twilio.
Import JS.

(** [wantsSchedule] of the route, from [req.body.SpeechResult || '']. *)
Definition wantsSchedule (speechResult : jsstring) : bool :=
  let response := toLowerCase speechResult in
  includes response (str "yes") || includes response (str "yeah") ||
  includes response (str "sure") || includes response (str "okay") ||
  includes response (str "yep").

(** The types of the events that the route creates, in order. *)
Definition schedule (speechResult : jsstring) : list string :=
  (if wantsSchedule speechResult
   then ["schedule_requested"; "appointment_scheduled"]
   else ["schedule_declined"])%string ++ ["demo_completed"%string].

(** [s.slice(a, b)] for [0 <= a <= b] *)
Definition slice (a b : nat) (s : jsstring) : jsstring := firstn (b - a) (skipn a s).

(** [digits.split('').join(' ')] *)
Definition spaced (digits : jsstring) : jsstring := join (map (fun c => [c]) digits).

Definition formatPhoneForSpeech (phone : jsstring) : jsstring :=
  let digits := stripNonDigits phone in
  if length digits =? 10 then
    slice 0 3 digits ++ str ", " ++ slice 3 6 digits ++ str ", " ++ skipn 6 digits
  else if (length digits =? 11) && bool_decide (head digits = Some "1"%char) then
    slice 1 4 digits ++ str ", " ++ slice 4 7 digits ++ str ", " ++ skipn 7 digits
  else spaced digits.


End Twilio.

(* ====================================================================== *)
(** ** The session module: sessions, pairing and rate limiting *)
(* ====================================================================== *)

Module Session.

Inductive SessionStatus : Type := CREATED | PAIRED | ACTIVE | EXPIRED.

#[global] Instance SessionStatus_eq_dec : EqDecision SessionStatus.
Proof. solve_decision. Defined.

(** A row of the table of sessions.  Dates are milliseconds since the
    epoch. *)
Record Session : Type := mkSession {
  id : string;
  browserToken : string;
  pairCode : string;
  status : SessionStatus;
  expiresAt : Z;
  callerNumber : option string;
  callerName : option string;
  callSid : option string;
  activeUntil : option Z
}.

(** A row of the table of events; of the payload, the time stamp (the
    clock as text) is left out. *)
Record Event : Type := mkEvent {
  sessionId : string;
  type : string;
  value : list (string * string)
}.

(** A row of the table of rate limits, keyed by the caller's number. *)
Record RateLimit : Type := mkRateLimit {
  failedAttempts : Z;
  lastAttemptAt : Z;
  lockedUntil : option Z
}.

(** The database behind [prisma]. *)
Record Db : Type := mkDb {
  sessions : list Session;
  events : list Event;
  rateLimits : gmap string RateLimit
}.

(** The part of [config] that the module reads. *)
Record Config : Type := mkConfig {
  expiryMinutes : Z;
  pairedExpiryMinutes : Z;
  maxAttempts : Z;
  lockoutSeconds : Z
}.

(** [status: { in: [CREATED, PAIRED, ACTIVE] }, expiresAt: { gt: new Date() }] *)
Definition isLive (now : Z) (s : Session) : bool :=
  bool_decide (status s = CREATED \/ status s = PAIRED \/ status s = ACTIVE)
  && (now <? expiresAt s)%Z.

(** [String(n).padStart(4, '0')] *)
Definition padStart4 (n : N) : string :=
  let digits := NilZero.string_of_uint (N.to_uint n) in
  string_of_list_ascii (repeat "0"%char (4 - String.length digits)) ++ digits.

(** The loop of [generateUniquePairCode] from its [i]-th turn on, with
    [fuel] turns left; [draws i] is [Math.floor(Math.random() * 10000)] in
    turn [i].  [None] is the exception thrown after the last turn. *)
Fixpoint generateFrom (ss : list Session) (now : Z) (draws : nat -> N)
         (i fuel : nat) : option string :=
  match fuel with
  | O => None
  | S fuel' =>
      let code := padStart4 (draws i) in
      match find (fun s => bool_decide (pairCode s = code) && isLive now s) ss with
      | None => Some code
      | Some _ => generateFrom ss now draws (S i) fuel'
      end
  end.

Definition generateUniquePairCode (d : Db) (now : Z) (draws : nat -> N) : option string :=
  generateFrom (sessions d) now draws 0 100.

(** What [createSession] returns. *)
Record SessionSummary : Type := mkSummary {
  sum_id : string;
  sum_pairCode : string;
  sum_expiresAt : Z
}.

Definition summary (s : Session) : SessionSummary :=
  mkSummary (id s) (pairCode s) (expiresAt s).

(** The session of [browserToken] that [createSession] looks for. *)
Definition findActive (d : Db) (now : Z) (token : string) : option Session :=
  find (fun s => bool_decide (browserToken s = token) && isLive now s) (sessions d).

(** [createSession]: [now] is the clock, [draws] the random draws and
    [newId] the identifier that the database gives to a new row.  [None]
    is the exception of [generateUniquePairCode]. *)
Definition createSession (cfg : Config) (d : Db) (now : Z) (draws : nat -> N)
           (newId : string) (token : string) : option (SessionSummary * Db) :=
  match findActive d now token with
  | Some existing => Some (summary existing, d)
  | None =>
      match generateUniquePairCode d now draws with
      | None => None
      | Some code =>
          let expires := (now + expiryMinutes cfg * 60 * 1000)%Z in
          let session := mkSession newId token code CREATED expires None None None None in
          Some (summary session, mkDb (sessions d ++ [session]) (events d) (rateLimits d))
      end
  end.

Definition findSessionByCode (d : Db) (now : Z) (code : string) : option Session :=
  find (fun s => bool_decide (pairCode s = code) && bool_decide (status s = CREATED)
                 && (now <? expiresAt s)%Z) (sessions d).

(** [prisma.session.update({ where: { id }, data })]: the row with this
    identifier is replaced; [None] when there is none. *)
Definition updateSession (sid : string) (f : Session -> Session) (ss : list Session)
  : option (Session * list Session) :=
  match find (fun s => bool_decide (id s = sid)) ss with
  | None => None
  | Some s => Some (f s, map (fun s' => if bool_decide (id s' = sid) then f s' else s') ss)
  end.

Definition createEvent (d : Db) (sid type : string) (value : list (string * string)) : Db :=
  mkDb (sessions d) (events d ++ [mkEvent sid type value]) (rateLimits d).

(** [phone.slice(-4)] *)
Definition lastFour (phone : string) : string :=
  string_of_list_ascii (JS.sliceLast 4 (list_ascii_of_string phone)).

Definition maskPhoneNumber (phone : string) : string :=
  if (String.length phone <? 4)%nat then "****" else "***-***-" ++ lastFour phone.

Definition pairSession (cfg : Config) (d : Db) (now : Z)
           (sid callerNumber callerName callSid : string) : option (Session * Db) :=
  let until := (now + pairedExpiryMinutes cfg * 60 * 1000)%Z in
  match updateSession sid
          (fun s => mkSession (id s) (browserToken s) (pairCode s) PAIRED until
                              (Some callerNumber) (Some callerName) (Some callSid)
                              (Some until))
          (sessions d) with
  | None => None
  | Some (session, ss) =>
      let d' := mkDb ss (events d) (rateLimits d) in
      Some (session,
            createEvent d' sid "paired"
              [("callerName", callerName);
               ("callerNumber", maskPhoneNumber callerNumber)])
  end.

(** *** Rate limiting *)

Record RateLimitCheck : Type := mkCheck {
  allowed : bool;
  remainingAttempts : option Z;
  check_lockedUntil : option Z
}.

Definition setRateLimit (d : Db) (caller : string) (r : RateLimit) : Db :=
  mkDb (sessions d) (events d) (<[caller := r]> (rateLimits d)).

Definition checkRateLimit (cfg : Config) (d : Db) (now : Z) (caller : string)
  : RateLimitCheck * Db :=
  match rateLimits d !! caller with
  | None => (mkCheck true (Some (maxAttempts cfg)) None, d)
  | Some record =>
      match lockedUntil record with
      | Some until =>
          if (now <? until)%Z then (mkCheck false None (Some until), d)
          else
            (mkCheck true (Some (maxAttempts cfg)) None,
             setRateLimit d caller (mkRateLimit 0 (lastAttemptAt record) None))
      | None =>
          let remaining := (maxAttempts cfg - failedAttempts record)%Z in
          (mkCheck (0 <? remaining)%Z (Some (Z.max 0 remaining)) None, d)
      end
  end.

Record FailedAttempt : Type := mkFailed {
  locked : bool;
  failed_lockedUntil : option Z
}.

(** The row after [prisma.rateLimit.upsert]; a new row takes the clock as
    its [lastAttemptAt] and has no [lockedUntil]. *)
Definition upsertFailure (d : Db) (now : Z) (caller : string) : RateLimit :=
  match rateLimits d !! caller with
  | None => mkRateLimit 1 now None
  | Some r => mkRateLimit (failedAttempts r + 1) now (lockedUntil r)
  end.

Definition recordFailedAttempt (cfg : Config) (d : Db) (now : Z) (caller : string)
  : FailedAttempt * Db :=
  let record := upsertFailure d now caller in
  if (maxAttempts cfg <=? failedAttempts record)%Z then
    let until := (now + lockoutSeconds cfg * 1000)%Z in
    (mkFailed true (Some until),
     setRateLimit d caller (mkRateLimit (failedAttempts record) (lastAttemptAt record) (Some until)))
  else (mkFailed false None, setRateLimit d caller record).

(** [recordFailedAttempt] once at each of the times [times], in order. *)
Definition recordFailures (cfg : Config) (caller : string) (times : list Z) (d : Db) : Db :=
  fold_left (fun d' now => snd (recordFailedAttempt cfg d' now caller)) times d.

(** *** Two callers and one code

    The find-then-pair sequence of the code step of a call, as the two
    database operations it consists of; an attempt is at its lookup, holds
    the session it has found, or is over. *)
Inductive Progress : Type :=
| AtLookup
| Found (s : Session)
| Finished (paired : option Session).

Record Attempt : Type := mkAttempt {
  att_callerNumber : string;
  att_callerName : string;
  att_callSid : string;
  progress : Progress
}.

Definition setProgress (a : Attempt) (p : Progress) : Attempt :=
  mkAttempt (att_callerNumber a) (att_callerName a) (att_callSid a) p.

(** The next database operation of an attempt, at the time [now]. *)
Definition advance (cfg : Config) (code : string) (now : Z) (d : Db) (a : Attempt)
  : Db * Attempt :=
  match progress a with
  | AtLookup =>
      match findSessionByCode d now code with
      | Some s => (d, setProgress a (Found s))
      | None => (d, setProgress a (Finished None))
      end
  | Found s =>
      match pairSession cfg d now (id s) (att_callerNumber a) (att_callerName a) (att_callSid a) with
      | Some (s', d') => (d', setProgress a (Finished (Some s')))
      | None => (d, setProgress a (Finished None))
      end
  | Finished _ => (d, a)
  end.

Inductive Who : Type := First | Second.

(** The database and the two attempts. *)
Definition Race : Type := (Db * (Attempt * Attempt))%type.

Definition turn (cfg : Config) (code : string) (r : Race) (w : Who * Z) : Race :=
  let '(d, (a1, a2)) := r in
  match fst w with
  | First => let '(d', a1') := advance cfg code (snd w) d a1 in (d', (a1', a2))
  | Second => let '(d', a2') := advance cfg code (snd w) d a2 in (d', (a1, a2'))
  end.

(** The operations of the two attempts in the order [schedule], each with
    the time at which it runs. *)
Definition run (cfg : Config) (code : string) (schedule : list (Who * Z)) (r : Race) : Race :=
  fold_left (turn cfg code) schedule r.

Definition hasPaired (a : Attempt) : bool :=
  match progress a with
  | Finished (Some _) => true
  | _ => false
  end.

Definition sawNoSession (a : Attempt) : bool :=
  match progress a with
  | Finished None => true
  | _ => false
  end.

Definition other (w : Who) : Who :=
  match w with
  | First => Second
  | Second => First
  end.

Definition attemptOf (w : Who) (r : Race) : Attempt :=
  match w with
  | First => fst (snd r)
  | Second => snd (snd r)
  end.

(** *** The other updates of a session *)

Definition withSessions (d : Db) (ss : list Session) : Db :=
  mkDb ss (events d) (rateLimits d).

Definition setStatus (st : SessionStatus) (s : Session) : Session :=
  mkSession (id s) (browserToken s) (pairCode s) st (expiresAt s)
            (callerNumber s) (callerName s) (callSid s) (activeUntil s).

(** [None] is the exception of [prisma.session.update] when no row has
    the identifier. *)
Definition activateSession (d : Db) (sid : string) : option (Session * Db) :=
  match updateSession sid (setStatus ACTIVE) (sessions d) with
  | None => None
  | Some (s, ss) => Some (s, withSessions d ss)
  end.

Definition extendSession (cfg : Config) (d : Db) (now : Z) (sid : string)
  : option (Session * Db) :=
  let until := (now + pairedExpiryMinutes cfg * 60 * 1000)%Z in
  match updateSession sid
          (fun s => mkSession (id s) (browserToken s) (pairCode s) (status s) until
                              (callerNumber s) (callerName s) (callSid s) (Some until))
          (sessions d) with
  | None => None
  | Some (s, ss) => Some (s, withSessions d ss)
  end.

Definition updateSessionPhone (d : Db) (sid callbackPhone : string) : option (Session * Db) :=
  match updateSession sid
          (fun s => mkSession (id s) (browserToken s) (pairCode s) (status s) (expiresAt s)
                              (Some callbackPhone) (callerName s) (callSid s) (activeUntil s))
          (sessions d) with
  | None => None
  | Some (s, ss) => Some (s, withSessions d ss)
  end.

Definition expireSession (d : Db) (sid : string) : option (Session * Db) :=
  match updateSession sid (setStatus EXPIRED) (sessions d) with
  | None => None
  | Some (s, ss) => Some (s, withSessions d ss)
  end.

(** [status: { in: [CREATED, PAIRED, ACTIVE] }, expiresAt: { lt: new Date() }] *)
Definition isOverdue (now : Z) (s : Session) : bool :=
  bool_decide (status s = CREATED \/ status s = PAIRED \/ status s = ACTIVE)
  && (expiresAt s <? now)%Z.

(** [cleanupExpiredSessions]: the number of rows changed and the database. *)
Definition cleanupExpiredSessions (d : Db) (now : Z) : nat * Db :=
  (length (List.filter (isOverdue now) (sessions d)),
   withSessions d (map (fun s => if isOverdue now s then setStatus EXPIRED s else s)
                       (sessions d))).

Definition clearRateLimit (d : Db) (caller : string) : Db :=
  mkDb (sessions d) (events d) (delete caller (rateLimits d)).


End Session.

(* ====================================================================== *)
(** ** The code step of the two call flows *)
(* ====================================================================== *)

Module RetellCalls.

(** An entry of [callState]. *)
Record CallState : Type := mkCallState {
  name : option string;
  sessionId : option string;
  callerNumber : option string;
  codeAttempts : Z
}.

(** What [handleVerifyCode] answers. *)
Inductive Reply : Type :=
| TooManyAttempts (waitSeconds : Z)
| NeedFourDigits
| CouldNotUnderstand
| CodeNotFound
| CodeMatchesNoSession
| Connected (session_id : string).

(** [state.name || 'Caller'] *)
Definition nameOrCaller (n : option string) : string :=
  match n with
  | None | Some EmptyString => "Caller"
  | Some x => x
  end.

(** [Math.ceil(ms / 1000)] *)
Definition ceilSeconds (ms : Z) : Z := (- ((- ms) / 1000))%Z.

(** [state.codeAttempts++; callState.set(callId, state)] *)
Definition countAttempt (st : gmap string CallState) (callId : string) (state : CallState)
  : CallState * gmap string CallState :=
  let state' := mkCallState (name state) (sessionId state) (callerNumber state)
                            (codeAttempts state + 1) in
  (state', <[callId := state']> st).

(** [handleVerifyCode]: [st] is [callState], [fromNumber] is the caller's number and
    [codeArg] is [String(args.code || '')].  [now] is the clock as the
    operations on the store read it, and [later] the clock as the handler
    reads it again, with [Date.now()], for the wait that it announces;
    the message to the socket of the session is left out.  [None] is an
    exception of [pairSession]. *)
Definition handleVerifyCode (cfg : Session.Config) (st : gmap string CallState)
           (d : Session.Db) (now later : Z) (callId fromNumber : string) (codeArg : jsstring)
  : option (Reply * (Session.Db * gmap string CallState)) :=
  let code := JS.stripNonDigits codeArg in
  let state := default (mkCallState None None None 0) (st !! callId) in
  let callerName := nameOrCaller (name state) in
  let '(rateLimitCheck, d) := Session.checkRateLimit cfg d now fromNumber in
  if negb (Session.allowed rateLimitCheck) then
    let waitSeconds :=
      match Session.check_lockedUntil rateLimitCheck with
      | Some until => ceilSeconds (until - later)
      | None => 60%Z
      end in
    Some (TooManyAttempts waitSeconds, (d, st))
  else if negb (length code =? 4) then
    let '(state, st) := countAttempt st callId state in
    let d := snd (Session.recordFailedAttempt cfg d now fromNumber) in
    if (3 <=? codeAttempts state)%Z then Some (CouldNotUnderstand, (d, st))
    else Some (NeedFourDigits, (d, st))
  else
    match Session.findSessionByCode d now (string_of_list_ascii code) with
    | None =>
        let '(state, st) := countAttempt st callId state in
        let d := snd (Session.recordFailedAttempt cfg d now fromNumber) in
        if (3 <=? codeAttempts state)%Z then Some (CodeMatchesNoSession, (d, st))
        else Some (CodeNotFound, (d, st))
    | Some session =>
        match Session.pairSession cfg d now (Session.id session) fromNumber callerName callId with
        | None => None
        | Some (_, d) =>
            let d := Session.clearRateLimit d fromNumber in
            let state := mkCallState (name state) (Some (Session.id session))
                                     (callerNumber state) (codeAttempts state) in
            Some (Connected (Session.id session), (d, <[callId := state]> st))
        end
    end.

End RetellCalls.

Module TwilioCalls.

(** An entry of [callData]. *)
Record CallData : Type := mkCallData {
  name : option string;
  attempts : Z;
  sessionId : option string
}.

(** What the route [/code] says, and whether it hangs up or asks again. *)
Inductive Reply : Type :=
| TooManyAttempts (waitSeconds : Z)
| CouldNotUnderstand
| SayDigitsAgain
| CodeMatchesNoSession
| CodeNotFound
| Connected (session_id : string)
| PairingError.

Definition hangsUp (r : Reply) : bool :=
  match r with
  | TooManyAttempts _ | CouldNotUnderstand | CodeMatchesNoSession | PairingError => true
  | SayDigitsAgain | CodeNotFound | Connected _ => false
  end.

(** [data.name || 'Caller'] *)
Definition nameOrCaller (n : option string) : string :=
  match n with
  | None | Some EmptyString => "Caller"
  | Some x => x
  end.

(** [data.attempts++; callData.set(callSid, data)] *)
Definition countAttempt (st : gmap string CallData) (callSid : string) (data : CallData)
  : CallData * gmap string CallData :=
  let data' := mkCallData (name data) (attempts data + 1) (sessionId data) in
  (data', <[callSid := data']> st).

(** The route [/code]: [st] is [callData], [from] is [req.body.From || '']
    and [speechResult] is [req.body.SpeechResult || ''].  [now] is the clock
    as the operations on the store read it, and [later] the clock as the
    route reads it again, with [Date.now()], for the wait; the message to the
    socket of the session is left out.  The exception of [pairSession] is
    caught by the route. *)
Definition code (cfg : Session.Config) (st : gmap string CallData)
           (d : Session.Db) (now later : Z) (callSid from : string) (speechResult : jsstring)
  : Reply * (Session.Db * gmap string CallData) :=
  let data := default (mkCallData None 0 None) (st !! callSid) in
  let callerName := nameOrCaller (name data) in
  let '(rateLimitCheck, d) := Session.checkRateLimit cfg d now from in
  if negb (Session.allowed rateLimitCheck) then
    let waitSeconds :=
      match Session.check_lockedUntil rateLimitCheck with
      | Some until => RetellCalls.ceilSeconds (until - later)
      | None => 60%Z
      end in
    (TooManyAttempts waitSeconds, (d, st))
  else
    let parseResult := SpeechParser.parseSpokenCode speechResult in
    match (if SpeechParser.success parseResult then SpeechParser.code parseResult else None) with
    | None | Some [] =>
        let '(data, st) := countAttempt st callSid data in
        let '(lockResult, d) := Session.recordFailedAttempt cfg d now from in
        if Session.locked lockResult || (3 <=? attempts data)%Z
        then (CouldNotUnderstand, (d, st))
        else (SayDigitsAgain, (d, st))
    | Some parsed =>
        match Session.findSessionByCode d now (string_of_list_ascii parsed) with
        | None =>
            let '(data, st) := countAttempt st callSid data in
            let d := snd (Session.recordFailedAttempt cfg d now from) in
            if (3 <=? attempts data)%Z then (CodeMatchesNoSession, (d, st))
            else (CodeNotFound, (d, st))
        | Some session =>
            match Session.pairSession cfg d now (Session.id session) from callerName callSid with
            | None => (PairingError, (d, st))
            | Some (_, d) =>
                let d := Session.clearRateLimit d from in
                let data := mkCallData (name data) (attempts data) (Some (Session.id session)) in
                (Connected (Session.id session), (d, <[callSid := data]> st))
            end
        end
    end.

End TwilioCalls.

(* ====================================================================== *)
(** ** Notions used to state the properties *)
(* ====================================================================== *)

Section CodeStages.
Import JS SpeechParser.

(** The digits of the transcript as it is, after the filler phrases: the
    local [directDigits] of [parseSpokenCode]. *)
Definition directDigits (speech : jsstring) : jsstring :=
  stripNonDigits (normalizeCode speech).

(** The digits after the digit words are translated: the local [digits]. *)
Definition translatedDigits (speech : jsstring) : jsstring :=
  stripNonDigits (replaceWords digitPatterns (normalizeCode speech)).

(** The result of the compound-number stage: the local [compoundResult]. *)
Definition compoundDigits (speech : jsstring) : option jsstring :=
  parseCompoundNumbers (normalizeCode speech).

(** The condition [compoundResult && compoundResult.length === 4]. *)
Definition compoundIsCode (speech : jsstring) : bool :=
  match compoundDigits speech with
  | Some c => length c =? 4
  | None => false
  end.

End CodeStages.

Section DigitsKept.
Import JS SpeechParser.

Definition digitChars : jsstring := str "0123456789".

(** No character class of [r] accepts a digit. *)
Fixpoint avoidsDigits (r : regex) : bool :=
  match r with
  | Empty | WordBoundary => true
  | Char p | Star p => forallb (fun d => negb (p d)) digitChars
  | Seq r1 r2 | Alt r1 r2 => avoidsDigits r1 && avoidsDigits r2
  | Opt r1 => avoidsDigits r1
  end.

Definition noDigit (m : jsstring) : Prop := Forall (fun c => isDigit c = false) m.

Definition countDigits (s : jsstring) : nat := length (List.filter isDigit s).

(** A table of words none of which has a digit among its characters. *)
Definition wordsAvoidDigits (table : list (string * string)) : bool :=
  forallb (fun wd => avoidsDigits (word (fst wd))) table.

End DigitsKept.

Section CategoryTables.
Import JS SpeechParser.

(** [kw] is a substring of [transcript] when the case of letters is ignored. *)
Definition containsIgnoringCase (transcript kw : jsstring) : bool :=
  includes (toLowerCase transcript) (toLowerCase kw).

(** The resolution of a category as the specification words it: the key of
    the first entry, in table order, one of whose keywords is a substring
    of the transcript, case ignored; nothing when there is none. *)
Definition parseCategory (table : keywordTable) (transcript : jsstring) : option string :=
  fst <$> find (fun entry =>
                  existsb (fun kw => containsIgnoringCase transcript (str kw)) (snd entry))
               table.

(** The tables that the chains of conditions of [normalizeVertical] and
    [normalizePain] go through. *)
Definition retellVerticals : keywordTable :=
  [ ("real_estate", ["real estate"; "realtor"; "property"]);
    ("insurance", ["insurance"; "policy"]);
    ("mortgage", ["mortgage"; "loan"; "lending"]) ]%string.

Definition retellPains : keywordTable :=
  [ ("spam_flags", ["spam"; "flag"; "blocked"]);
    ("awkward_delay", ["delay"; "awkward"; "pause"]);
    ("low_answer_rates", ["answer"; "rate"; "pickup"]);
    ("speed", ["speed"; "slow"; "fast"]) ]%string.

(** A keyword that [trim] and [toLowerCase] cannot affect: not empty, in
    lower case, with no white space at either end. *)
Definition plainKeyword (kw : jsstring) : bool :=
  match kw, rev kw with
  | k :: _, l :: _ =>
      negb (isSpace k) && negb (isSpace l) && bool_decide (toLowerCase kw = kw)
  | _, _ => false
  end.

Definition plainTable (table : keywordTable) : bool :=
  forallb (fun entry => forallb (fun kw => plainKeyword (str kw)) (snd entry)) table.

End CategoryTables.

Section FailureCount.
Import Session.
Local Open Scope Z_scope.

(** The caller has [k] failures on record and is not locked out; no row
    at all counts as no failure. *)
Definition unlockedWith (caller : string) (k : Z) (d : Db) : Prop :=
  match rateLimits d !! caller with
  | None => k = 0
  | Some r => failedAttempts r = k /\ lockedUntil r = None
  end.

End FailureCount.

Section MatchStart.
Import JS SpeechParser.

(** All the code units of the model. *)
Definition allChars : jsstring := map ascii_of_nat (seq 0 256).

(** No character is in both classes. *)
Definition disjointClasses (p q : ascii -> bool) : bool :=
  forallb (fun c => negb (p c && q c)) allChars.

(** [r] may match the empty string. *)
Fixpoint nullable (r : regex) : bool :=
  match r with
  | Empty | Opt _ | Star _ | WordBoundary => true
  | Char _ => false
  | Seq r1 r2 => nullable r1 && nullable r2
  | Alt r1 r2 => nullable r1 || nullable r2
  end.

(** A match of [r] that is not empty begins with a character outside [q]. *)
Fixpoint startsOutside (q : ascii -> bool) (r : regex) : bool :=
  match r with
  | Empty | WordBoundary => true
  | Char p | Star p => disjointClasses p q
  | Seq r1 r2 => startsOutside q r1 && (negb (nullable r1) || startsOutside q r2)
  | Alt r1 r2 => startsOutside q r1 && startsOutside q r2
  | Opt r1 => startsOutside q r1
  end.

(** [r] has no match in a string of characters of [q]. *)
Definition foreignTo (q : ascii -> bool) (r : regex) : bool :=
  startsOutside q r && negb (nullable r).

(** Every word of the table is foreign to [q]. *)
Definition wordsForeignTo (q : ascii -> bool) (table : list (string * string)) : bool :=
  forallb (fun wd => foreignTo q (word (fst wd))) table.

(** The string has characters of [q] only. *)
Definition madeOf (q : ascii -> bool) (s : jsstring) : Prop :=
  Forall (fun c => q c = true) s.

Definition notLetter (c : ascii) : bool := negb (isLetter c).

(** The first character of a match: a match is empty, and then the
    pattern is nullable, or begins outside [q]. *)
Definition startsWell (q : ascii -> bool) (r : regex) (m : jsstring) : Prop :=
  match m with
  | [] => nullable r = true
  | c :: _ => q c = false
  end.

(** The string has digits only. *)
Definition isDigits (t : jsstring) : Prop := Forall (fun c => isDigit c = true) t.

(** The number that both phone parsers make of the digits they are left
    with: the conditions of [parsePhoneNumber] and [normalizePhoneNumber]. *)
Definition numberOfDigits (digits : jsstring) : option jsstring :=
  if length digits =? 10 then Some (str "+1" ++ digits)
  else if (length digits =? 11) && bool_decide (head digits = Some "1"%char) then
    Some (str "+" ++ digits)
  else if 10 <? length digits then Some (str "+1" ++ sliceLast 10 digits)
  else None.

End MatchStart.

Section StoreInvariants.
Import Session.

(** The codes of the sessions that are created, paired or active and have
    not expired at [now] are all different. *)
Definition liveCodesUnique (now : Z) (d : Db) : Prop :=
  NoDup (map pairCode (List.filter (isLive now) (sessions d))).

(** The code is four decimal digits. *)
Definition fourDigitCode (code : string) : bool :=
  (length (list_ascii_of_string code) =? 4) && forallb JS.isDigit (list_ascii_of_string code).

(** Some session that is live at [now] has the code. *)
Definition codeTaken (now : Z) (ss : list Session) (code : string) : bool :=
  existsb (fun s => bool_decide (pairCode s = code) && isLive now s) ss.

(** The row that the sweep writes for a session. *)
Definition swept (now : Z) (s : Session) : Session :=
  if isOverdue now s then setStatus EXPIRED s else s.

End StoreInvariants.

Section CallNotions.

(** [handleVerifyCode] for each call of [calls], its two readings of the
    clock and its argument, in order, within one phone call; the replies
    and the final state. *)
Fixpoint verifyCodes (cfg : Session.Config) (callId fromNumber : string)
         (calls : list (Z * Z * jsstring)) (st : gmap string RetellCalls.CallState)
         (d : Session.Db)
  : option (list RetellCalls.Reply * (Session.Db * gmap string RetellCalls.CallState)) :=
  match calls with
  | [] => Some ([], (d, st))
  | (t, later, arg) :: calls' =>
      match RetellCalls.handleVerifyCode cfg st d t later callId fromNumber arg with
      | None => None
      | Some (r, (d', st')) =>
          match verifyCodes cfg callId fromNumber calls' st' d' with
          | None => None
          | Some (rs, final) => Some (r :: rs, final)
          end
      end
  end.

(** The argument does not have four digits, or no session can be found
    under them at the time. *)
Definition misses (d : Session.Db) (call : Z * Z * jsstring) : Prop :=
  length (JS.stripNonDigits (snd call)) <> 4 \/
  Session.findSessionByCode d (fst (fst call))
    (string_of_list_ascii (JS.stripNonDigits (snd call))) = None.

(** The replies to a code that did not pair. *)
Definition isRefusal (r : RetellCalls.Reply) : bool :=
  match r with
  | RetellCalls.NeedFourDigits | RetellCalls.CouldNotUnderstand
  | RetellCalls.CodeNotFound | RetellCalls.CodeMatchesNoSession => true
  | _ => false
  end.

(** The row that [pairSession] writes for a session. *)
Definition pairedRow (cfg : Session.Config) (now : Z) (number name sid : string)
           (s : Session.Session) : Session.Session :=
  let until := (now + Session.pairedExpiryMinutes cfg * 60 * 1000)%Z in
  Session.mkSession (Session.id s) (Session.browserToken s) (Session.pairCode s)
                    Session.PAIRED until (Some number) (Some name) (Some sid) (Some until).

(** The speech is no code, or no session can be found under the code, in
    the route [/code] of the Twilio flow. *)
Definition missesSpoken (d : Session.Db) (now : Z) (speechResult : jsstring) : Prop :=
  let parseResult := SpeechParser.parseSpokenCode speechResult in
  match (if SpeechParser.success parseResult then SpeechParser.code parseResult else None) with
  | None | Some [] => True
  | Some parsed => Session.findSessionByCode d now (string_of_list_ascii parsed) = None
  end.

End CallNotions.

(* ====================================================================== *)
(** * Properties *)
(* ====================================================================== *)

(** ** Digits *)

Section Digits.
Import JS SpeechParser.

(** Replacing every character outside a class by nothing keeps the
    characters of the class. *)
Lemma replace_complement_filter (p : ascii -> bool) (s : jsstring) (prev : option ascii) :
  replace_from (Char (fun c => negb (p c))) (fun _ => []) prev 0 s = List.filter p s.
Proof.
  revert prev. induction s as [|c s IH]; intros prev.
  - reflexivity.
  - cbn [replace_from exec rmatch List.filter].
    destruct (p c) eqn:Hp; cbn [negb].
    + now rewrite IH.
    + replace (length (c :: s) - length s) with 1 by (cbn [length]; lia).
      cbn [app]. apply IH.
Qed.

Lemma stripNonDigits_filter (s : jsstring) :
  stripNonDigits s = List.filter isDigit s.
Proof. apply replace_complement_filter. Qed.

Lemma stripNonDigits_digits (s : jsstring) :
  Forall (fun c => isDigit c = true) (stripNonDigits s).
Proof.
  rewrite stripNonDigits_filter. apply List.Forall_forall.
  intros c Hc. now apply List.filter_In in Hc.
Qed.

Lemma parseCompoundNumbers_digits (text c : jsstring) :
  parseCompoundNumbers text = Some c -> Forall (fun x => isDigit x = true) c.
Proof.
  unfold parseCompoundNumbers.
  destruct (4 <=? _); [|discriminate].
  intros [= <-]. apply stripNonDigits_digits.
Qed.

(** *** Replacements that leave the digits of the input in place *)

Lemma isDigit_digitChars (c : ascii) : isDigit c = true -> In c digitChars.
Proof.
  destruct c as [[] [] [] [] [] [] [] []]; vm_compute; intros H;
    try discriminate H; tauto.
Qed.

Lemma class_avoids (p : ascii -> bool) (c : ascii) :
  forallb (fun d => negb (p d)) digitChars = true -> p c = true -> isDigit c = false.
Proof.
  intros Hall Hp. destruct (isDigit c) eqn:Hd; [|reflexivity].
  apply isDigit_digitChars in Hd.
  rewrite List.forallb_forall in Hall. specialize (Hall c Hd).
  rewrite Hp in Hall. discriminate.
Qed.

Lemma star_loop_consumed {R} (p : ascii -> bool) (s : jsstring) :
  forallb (fun d => negb (p d)) digitChars = true ->
  forall (prev : option ascii) (k : cont R) (res : R),
    star_loop p prev s k = Some res ->
    exists m rest prev', s = m ++ rest /\ noDigit m /\ k prev' rest = Some res.
Proof.
  intros Hp. induction s as [|c s IH]; intros prev k res H.
  - exists [], [], prev. repeat split; [constructor | exact H].
  - cbn [star_loop] in H. destruct (p c) eqn:Hc.
    + destruct (star_loop p (Some c) s k) as [r|] eqn:Hs.
      * destruct (IH _ _ _ Hs) as (m & rest & prev' & -> & Hm & Hk).
        exists (c :: m), rest, prev'. repeat split.
        -- constructor; [eapply class_avoids; eassumption | exact Hm].
        -- congruence.
      * exists [], (c :: s), prev. repeat split; [constructor | exact H].
    + exists [], (c :: s), prev. repeat split; [constructor | exact H].
Qed.

(** What a match consumes is a prefix of the input without digits. *)
Lemma rmatch_consumed {R} (r : regex) :
  avoidsDigits r = true ->
  forall (prev : option ascii) (s : jsstring) (k : cont R) (res : R),
    rmatch r prev s k = Some res ->
    exists m rest prev', s = m ++ rest /\ noDigit m /\ k prev' rest = Some res.
Proof.
  induction r as [|p|r1 IH1 r2 IH2|r1 IH1 r2 IH2|r1 IH1|p|];
    cbn [avoidsDigits rmatch]; intros Hr prev s k res H.
  - exists [], s, prev. repeat split; [constructor | exact H].
  - destruct s as [|c s]; [discriminate|].
    destruct (p c) eqn:Hc; [|discriminate].
    exists [c], s, (Some c). repeat split; [|exact H].
    constructor; [eapply class_avoids; eassumption | constructor].
  - apply andb_prop in Hr as [Hr1 Hr2].
    destruct (IH1 Hr1 _ _ _ _ H) as (m1 & rest1 & prev1 & -> & Hm1 & H1).
    destruct (IH2 Hr2 _ _ _ _ H1) as (m2 & rest2 & prev2 & -> & Hm2 & H2).
    exists (m1 ++ m2), rest2, prev2. repeat split.
    + now rewrite <- List.app_assoc.
    + now apply List.Forall_app.
    + exact H2.
  - apply andb_prop in Hr as [Hr1 Hr2].
    destruct (rmatch r1 prev s k) as [x|] eqn:Hx.
    + apply (IH1 Hr1 prev s k res). congruence.
    + apply (IH2 Hr2 prev s k res H).
  - destruct (rmatch r1 prev s k) as [x|] eqn:Hx.
    + apply (IH1 Hr prev s k res). congruence.
    + exists [], s, prev. repeat split; [constructor | exact H].
  - eapply star_loop_consumed; eassumption.
  - destruct (xorb _ _); [|discriminate].
    exists [], s, prev. repeat split; [constructor | exact H].
Qed.

Lemma exec_consumed (r : regex) (prev : option ascii) (s : jsstring) (n : nat) :
  avoidsDigits r = true -> exec r prev s = Some n ->
  n <= length s /\ noDigit (firstn n s).
Proof.
  intros Hr H. unfold exec in H.
  destruct (rmatch_consumed r Hr _ _ _ _ H) as (m & rest & _ & -> & Hm & [= <-]).
  rewrite List.length_app.
  replace (length m + length rest - length rest) with (length m) by lia.
  split; [lia|].
  now rewrite List.firstn_app, List.firstn_all, Nat.sub_diag, List.firstn_O, List.app_nil_r.
Qed.

Lemma countDigits_app (a b : jsstring) :
  countDigits (a ++ b) = countDigits a + countDigits b.
Proof. unfold countDigits. now rewrite List.filter_app, List.length_app. Qed.

Lemma replace_from_keeps_digits (r : regex) (f : jsstring -> jsstring) :
  avoidsDigits r = true ->
  forall (s : jsstring) (prev : option ascii) (skip : nat),
    noDigit (firstn skip s) ->
    countDigits s <= countDigits (replace_from r f prev skip s).
Proof.
  intros Hr. induction s as [|c s IH]; intros prev skip Hskip.
  - unfold countDigits at 1. cbn. lia.
  - destruct skip as [|n].
    + cbn [replace_from].
      destruct (exec r prev (c :: s)) as [[|n]|] eqn:He.
      * rewrite countDigits_app.
        specialize (IH (Some c) 0 (Forall_nil _)).
        unfold countDigits in *. cbn [List.filter]. cbn [List.filter] in IH.
        destruct (isDigit c); cbn [length]; lia.
      * destruct (exec_consumed _ _ _ _ Hr He) as [_ Hm].
        cbn [firstn] in Hm. inversion Hm as [|? ? Hc Hm']; subst.
        rewrite countDigits_app. specialize (IH (Some c) n Hm').
        unfold countDigits in *. cbn [List.filter]. rewrite Hc. lia.
      * specialize (IH (Some c) 0 (Forall_nil _)).
        unfold countDigits in *. cbn [List.filter].
        destruct (isDigit c); cbn [length]; lia.
    + cbn [replace_from]. cbn [firstn] in Hskip.
      inversion Hskip as [|? ? Hc Hm']; subst.
      specialize (IH (Some c) n Hm').
      unfold countDigits in *. cbn [List.filter]. rewrite Hc. lia.
Qed.

Lemma replaceWith_keeps_digits (r : regex) (f : jsstring -> jsstring) (s : jsstring) :
  avoidsDigits r = true -> countDigits s <= countDigits (replaceWith r f s).
Proof.
  intros Hr. apply replace_from_keeps_digits; [exact Hr | constructor].
Qed.

Lemma replaceWords_keeps_digits (table : list (string * string)) :
  wordsAvoidDigits table = true ->
  forall s : jsstring, countDigits s <= countDigits (replaceWords table s).
Proof.
  unfold replaceWords. induction table as [|wd table IH]; intros Ht s.
  - cbn [fold_left]. apply le_n.
  - cbn [wordsAvoidDigits forallb] in Ht. apply andb_prop in Ht as [Hw Ht].
    cbn [fold_left]. etransitivity; [|apply IH, Ht].
    unfold replaceAll. now apply replaceWith_keeps_digits.
Qed.

(** Translating the digit words never loses a digit of the transcript. *)
Lemma translation_keeps_digits (s : jsstring) :
  length (stripNonDigits s) <= length (stripNonDigits (replaceWords digitPatterns s)).
Proof.
  rewrite !stripNonDigits_filter.
  apply (replaceWords_keeps_digits digitPatterns). vm_compute. reflexivity.
Qed.

End Digits.

(** ** The code parser *)

Section SpokenCode.
Import JS SpeechParser.

(** [parseSpokenCode] in terms of its three stages. *)
Lemma parseSpokenCode_stages (speech : jsstring) :
  parseSpokenCode speech =
  match speech with
  | [] => mkParseResult false None [] None
  | _ =>
      if length (directDigits speech) =? 4 then
        mkParseResult true (Some (directDigits speech)) (trim speech)
                      (Some (directDigits speech))
      else if length (translatedDigits speech) =? 4 then
        mkParseResult true (Some (translatedDigits speech)) (trim speech)
                      (Some (translatedDigits speech))
      else if compoundIsCode speech then
        mkParseResult true (compoundDigits speech) (trim speech) (compoundDigits speech)
      else if 4 <? length (translatedDigits speech) then
        mkParseResult true (Some (sliceTo 4 (translatedDigits speech))) (trim speech)
                      (Some (sliceTo 4 (translatedDigits speech)))
      else mkParseResult false None (trim speech) (orUndefined (translatedDigits speech))
  end.
Proof. destruct speech; reflexivity. Qed.

(** C1.  The spoken forms of 4827: the two digit-by-digit forms give the
    code 4827; the compound form "forty eight twenty seven" gives the code
    4020, since the compound stage reads the transcript before its digit
    words are translated, where no digit follows "40" or "20". *)
Theorem parseSpokenCode_4827_forms :
  code (parseSpokenCode (str "four eight two seven")) = Some (str "4827") /\
  code (parseSpokenCode (str "the code is four eight two seven")) = Some (str "4827") /\
  parseSpokenCode (str "forty eight twenty seven") =
    mkParseResult true (Some (str "4020")) (str "forty eight twenty seven")
                  (Some (str "4020")).
Proof. repeat split; vm_compute; reflexivity. Qed.

(** C10.  A successful result carries a code of exactly four characters,
    each of them a decimal digit. *)
Theorem parseSpokenCode_code_four_digits (speech : jsstring) :
  success (parseSpokenCode speech) = true ->
  exists c, code (parseSpokenCode speech) = Some c /\
            length c = 4 /\
            Forall (fun x => isDigit x = true) c.
Proof.
  rewrite parseSpokenCode_stages.
  destruct speech as [|a speech]; [discriminate|].
  set (s := a :: speech).
  destruct (length (directDigits s) =? 4) eqn:Hd.
  { intros _. exists (directDigits s). cbn [code].
    apply Nat.eqb_eq in Hd.
    split; [reflexivity | split; [assumption | apply stripNonDigits_digits]]. }
  destruct (length (translatedDigits s) =? 4) eqn:Ht.
  { intros _. exists (translatedDigits s). cbn [code].
    apply Nat.eqb_eq in Ht.
    split; [reflexivity | split; [assumption | apply stripNonDigits_digits]]. }
  destruct (compoundIsCode s) eqn:Hc.
  { intros _. unfold compoundIsCode in Hc.
    destruct (compoundDigits s) as [c|] eqn:Hcd; [|discriminate].
    exists c. cbn [code]. apply Nat.eqb_eq in Hc.
    split; [reflexivity|]. split; [assumption|].
    now apply (parseCompoundNumbers_digits (normalizeCode s)). }
  destruct (4 <? length (translatedDigits s)) eqn:Hl; [|discriminate].
  intros _. exists (sliceTo 4 (translatedDigits s)). cbn [code].
  apply Nat.ltb_lt in Hl. split; [reflexivity|]. split.
  - unfold sliceTo. rewrite List.length_firstn. lia.
  - unfold sliceTo. apply list.Forall_take, stripNonDigits_digits.
Qed.

Lemma parseSpokenCode_code_four_digits_witness :
  exists c, code (parseSpokenCode (str "my code is 4 8 two 7")) = Some c /\
            length c = 4 /\
            Forall (fun x => isDigit x = true) c.
Proof.
  apply (parseSpokenCode_code_four_digits (str "my code is 4 8 two 7")).
  vm_compute. reflexivity.
Defined.

(** Four digits as they are, and a transcript without digits. *)
Example parseSpokenCode_examples :
  code (parseSpokenCode (str "4827")) = Some (str "4827") /\
  code (parseSpokenCode (str "Um, it's 4 8 2 7")) = Some (str "4827") /\
  code (parseSpokenCode (str "for ate too won")) = Some (str "4821") /\
  code (parseSpokenCode (str "one two three four five six")) = Some (str "1234") /\
  success (parseSpokenCode (str "hello")) = false.
Proof. repeat split; vm_compute; reflexivity. Qed.

Lemma directDigits_le_translated (speech : jsstring) :
  length (directDigits speech) <= length (translatedDigits speech).
Proof. apply translation_keeps_digits. Qed.

(** C5, as the specification states it, fails.  The transcript "10234"
    leaves five digits after direct extraction, and the code returned is
    1234, not the leading four 1023: the compound stage joins "10" and "2"
    into "12" and its four digits are accepted.  The transcript "eleven
    twelve thirteen" is rejected although the compound stage recovers the
    six digits 111213. *)
Lemma parseSpokenCode_not_always_leading_four :
  (4 < length (directDigits (str "10234")) /\
   sliceTo 4 (directDigits (str "10234")) = str "1023" /\
   code (parseSpokenCode (str "10234")) = Some (str "1234")) /\
  (compoundDigits (str "eleven twelve thirteen") = Some (str "111213") /\
   success (parseSpokenCode (str "eleven twelve thirteen")) = false).
Proof. vm_compute. repeat split; lia. Qed.

(** C5, amended.  When direct extraction does not give exactly four
    digits, the translated digit sequence has more than four and the
    compound stage does not give exactly four, the code is the leading
    four of the translated sequence.  The parser fails exactly when the
    translated sequence has fewer than four digits and the compound stage
    does not give exactly four. *)
Theorem parseSpokenCode_leading_four_or_fail (speech : jsstring) :
  (length (directDigits speech) <> 4 ->
   4 < length (translatedDigits speech) ->
   compoundIsCode speech = false ->
   code (parseSpokenCode speech) = Some (sliceTo 4 (translatedDigits speech))) /\
  (success (parseSpokenCode speech) = false <->
   length (translatedDigits speech) < 4 /\ compoundIsCode speech = false).
Proof.
  rewrite parseSpokenCode_stages.
  destruct speech as [|a speech].
  { split.
    - intros _ H. vm_compute in H. lia.
    - split; [intros _; vm_compute; split; [lia | reflexivity] | reflexivity]. }
  set (s := a :: speech).
  pose proof (directDigits_le_translated s) as Hle.
  destruct (Nat.eqb_spec (length (directDigits s)) 4) as [Hd|Hd];
    destruct (Nat.eqb_spec (length (translatedDigits s)) 4) as [Ht|Ht];
    destruct (compoundIsCode s) eqn:Hc;
    destruct (Nat.ltb_spec 4 (length (translatedDigits s))) as [Hl|Hl];
    cbn [code success];
    (split; [intros; solve [reflexivity | lia | discriminate | congruence]
            | split; [intros; solve [discriminate | split; [lia | reflexivity]]
                     | intros [? ?]; solve [reflexivity | lia | discriminate]]]).
Qed.

End SpokenCode.

(** ** The phone-number parser *)

Section PhoneNumber.
Import JS SpeechParser.

Lemma sliceLast_length (n : nat) (s : jsstring) :
  n <= length s -> length (sliceLast n s) = n.
Proof. intros H. unfold sliceLast. rewrite List.length_skipn. lia. Qed.

(** [sliceLast n s] is the end of [s]: [s] is some prefix followed by it. *)
Lemma sliceLast_suffix (n : nat) (s : jsstring) :
  s = firstn (length s - n) s ++ sliceLast n s.
Proof. unfold sliceLast. now rewrite List.firstn_skipn. Qed.

(** C6.  With [d] the digits left after the filler phrases are removed and
    the digit words translated: the parser succeeds exactly when [d] has at
    least ten digits; ten digits are prefixed with +1; eleven digits that
    begin with 1 are prefixed with +; any other sequence of more than ten
    digits gives its last ten digits prefixed with +1. *)
Theorem parsePhoneNumber_by_digit_count (speech : jsstring) :
  let d := phoneDigits speech in
  let r := parsePhoneNumber speech in
  (phone_success r = true <-> 10 <= length d) /\
  (length d = 10 -> number r = Some (str "+1" ++ d)) /\
  (length d = 11 -> head d = Some "1"%char -> number r = Some (str "+" ++ d)) /\
  (10 < length d -> ~ (length d = 11 /\ head d = Some "1"%char) ->
   number r = Some (str "+1" ++ sliceLast 10 d) /\
   length (sliceLast 10 d) = 10 /\
   d = firstn (length d - 10) d ++ sliceLast 10 d).
Proof.
  intros d r. subst d r. unfold parsePhoneNumber.
  destruct speech as [|a speech].
  { vm_compute. repeat split; intros; try discriminate; lia. }
  set (d := phoneDigits (a :: speech)).
  destruct (Nat.eqb_spec (length d) 10) as [H10|H10].
  { cbn [phone_success number]. repeat split; intros; try lia; reflexivity. }
  destruct (Nat.eqb_spec (length d) 11) as [H11|H11]; cbn [andb].
  - destruct (bool_decide_reflect (head d = Some "1"%char)) as [H1|H1];
      [|replace (10 <? length d) with true by (symmetry; apply Nat.ltb_lt; lia)];
      cbn [phone_success number];
      repeat split; intros; try lia; try reflexivity; try tauto;
      try (apply sliceLast_length; lia); apply sliceLast_suffix.
  - destruct (Nat.ltb_spec 10 (length d)) as [Hl|Hl]; cbn [phone_success number];
      repeat split; intros; try lia; try reflexivity; try discriminate;
      try (apply sliceLast_length; lia); apply sliceLast_suffix.
Qed.

(** The examples of the specification. *)
Example parsePhoneNumber_examples :
  number (parsePhoneNumber (str "four one five five five five one two three four"))
    = Some (str "+14155551234") /\
  number (parsePhoneNumber (str "1 415 555 1234")) = Some (str "+14155551234") /\
  number (parsePhoneNumber (str "001 415 555 1234")) = Some (str "+14155551234") /\
  phone_success (parsePhoneNumber (str "five five five one two three four")) = false.
Proof. repeat split; vm_compute; reflexivity. Qed.

End PhoneNumber.

(** ** Names *)

Section Names.
Import JS.

Lemma stripSpecial_filter (s : jsstring) :
  SpeechParser.stripSpecial s = List.filter SpeechParser.isNameChar s.
Proof. apply replace_complement_filter. Qed.

Lemma orCaller_nonempty (name : jsstring) : SpeechParser.orCaller name <> [].
Proof. destruct name; discriminate. Qed.

(** The Twilio parser gives a non-empty name to every non-empty transcript. *)
Lemma sanitizeName_nonempty (speech : jsstring) :
  speech <> [] -> SpeechParser.sanitizeName speech <> [].
Proof.
  destruct speech; [congruence|]. intros _. apply orCaller_nonempty.
Qed.

(** The Retell helper gives a non-empty name to every transcript. *)
Lemma retell_sanitizeName_nonempty (speech : jsstring) :
  Retell.sanitizeName speech <> [].
Proof. destruct speech; [discriminate|]. apply orCaller_nonempty. Qed.

(** A name is the placeholder or has at most 100 characters, all of them
    letters, white space, apostrophes or hyphens. *)
Lemma orCaller_shape (s : jsstring) :
  let name := SpeechParser.orCaller (sliceTo 100 (SpeechParser.stripSpecial s)) in
  name = str "Caller" \/
  (length name <= 100 /\ Forall (fun c => SpeechParser.isNameChar c = true) name).
Proof.
  cbv zeta. destruct (sliceTo 100 (SpeechParser.stripSpecial s)) as [|c n] eqn:Hn.
  - now left.
  - right. cbn [SpeechParser.orCaller]. rewrite <- Hn. unfold sliceTo. split.
    + rewrite List.length_firstn. lia.
    + apply list.Forall_take. rewrite stripSpecial_filter.
      apply List.Forall_forall. intros x Hx. now apply List.filter_In in Hx.
Qed.

(** C7.  The empty transcript, which the route [/name] passes on when the
    caller said nothing, gets the empty name from the Twilio parser and not
    the placeholder; a transcript of white space gets the placeholder, and
    the Retell helper gives the placeholder to both. *)
Theorem sanitizeName_empty_transcript :
  SpeechParser.sanitizeName (str "") = str "" /\
  SpeechParser.sanitizeName (str "   ") = str "Caller" /\
  Retell.sanitizeName (str "") = str "Caller" /\
  Retell.sanitizeName (str "   ") = str "Caller".
Proof. repeat split; vm_compute; reflexivity. Qed.

End Names.

(** ** Categories *)

Section Categories.
Import JS SpeechParser.

Lemma startsWith_iff (kw s : jsstring) :
  startsWith kw s = true <-> exists b, s = kw ++ b.
Proof.
  revert s. induction kw as [|k kw IH]; intros s; cbn [startsWith].
  - split; [intros _; now exists s | reflexivity].
  - destruct s as [|c s].
    + split; [discriminate | intros [b Hb]; discriminate].
    + rewrite andb_true_iff, IH. split.
      * intros [Hk [b ->]]. apply Ascii.eqb_eq in Hk. subst. now exists b.
      * intros [b [= -> ->]]. split; [apply Ascii.eqb_refl | now exists b].
Qed.

Lemma includes_iff (s kw : jsstring) :
  includes s kw = true <-> exists a b, s = a ++ kw ++ b.
Proof.
  induction s as [|c s IH]; cbn [includes]; rewrite orb_true_iff, startsWith_iff.
  - split.
    + intros [[b Hb]|H]; [now exists [], b | discriminate].
    + intros (a & b & H). left. destruct a; [now exists b | discriminate].
  - rewrite IH. split.
    + intros [[b Hb]|(a & b & ->)]; [now exists [], b | now exists (c :: a), b].
    + intros (a & b & H). destruct a as [|x a].
      * left. now exists b.
      * right. injection H as -> ->. now exists a, b.
Qed.

Lemma includes_after_space (c : ascii) (s kw : jsstring) :
  isSpace c = true -> plainKeyword kw = true ->
  includes (c :: s) kw = includes s kw.
Proof.
  intros Hc Hkw. cbn [includes].
  destruct kw as [|k kw]; [discriminate|]. cbn [startsWith].
  unfold plainKeyword in Hkw. destruct (rev (k :: kw)); [discriminate|].
  apply andb_prop in Hkw as [Hkw _]. apply andb_prop in Hkw as [Hk _].
  destruct (Ascii.eqb_spec k c) as [->|]; [|reflexivity].
  rewrite Hc in Hk. discriminate.
Qed.

Lemma includes_before_space (c : ascii) (s kw : jsstring) :
  isSpace c = true -> plainKeyword kw = true ->
  includes (s ++ [c]) kw = includes s kw.
Proof.
  intros Hc Hkw. apply Bool.eq_iff_eq_true. rewrite !includes_iff.
  unfold plainKeyword in Hkw.
  destruct kw as [|k kw'] eqn:Ekw; [discriminate|]. rewrite <- Ekw in *.
  destruct (rev kw) as [|l rk] eqn:Hrev; [discriminate|].
  apply andb_prop in Hkw as [Hkw _]. apply andb_prop in Hkw as [_ Hl].
  assert (Hlast : kw = rev rk ++ [l]).
  { rewrite <- (List.rev_involutive kw), Hrev. reflexivity. }
  split.
  - intros (a & b & H). induction b as [|x b' _] using List.rev_ind.
    + rewrite List.app_nil_r, Hlast, List.app_assoc in H.
      apply List.app_inj_tail in H as [_ <-]. rewrite Hc in Hl. discriminate.
    + exists a, b'. rewrite !List.app_assoc in H.
      apply List.app_inj_tail in H as [H _]. now rewrite List.app_assoc.
  - intros (a & b & ->). exists a, (b ++ [c]). now rewrite <- !List.app_assoc.
Qed.

Lemma dropWhile_split (p : ascii -> bool) (s : jsstring) :
  exists ws, s = ws ++ dropWhile p s /\ Forall (fun c => p c = true) ws.
Proof.
  induction s as [|c s (ws & Hs & Hws)]; cbn [dropWhile].
  - exists []. split; [reflexivity | constructor].
  - destruct (p c) eqn:Hc.
    + exists (c :: ws). split; [cbn; congruence | now constructor].
    + exists []. split; [reflexivity | constructor].
Qed.

Lemma includes_trimStart (s kw : jsstring) :
  plainKeyword kw = true -> includes (trimStart s) kw = includes s kw.
Proof.
  intros Hkw. unfold trimStart.
  destruct (dropWhile_split isSpace s) as (ws & Hs & Hws).
  rewrite Hs at 2. clear Hs. induction Hws as [|c ws Hc _ IH]; [reflexivity|].
  cbn [app]. now rewrite includes_after_space.
Qed.

Lemma includes_trimEnd (s kw : jsstring) :
  plainKeyword kw = true -> includes (trimEnd s) kw = includes s kw.
Proof.
  intros Hkw. unfold trimEnd.
  destruct (dropWhile_split isSpace (rev s)) as (ws & Hs & Hws).
  apply (f_equal (@rev ascii)) in Hs. rewrite List.rev_involutive, List.rev_app_distr in Hs.
  rewrite Hs at 2. clear Hs.
  induction Hws as [|c ws Hc _ IH]; cbn [rev].
  - now rewrite List.app_nil_r.
  - now rewrite List.app_assoc, includes_before_space.
Qed.

Lemma includes_trim (s kw : jsstring) :
  plainKeyword kw = true -> includes (trim s) kw = includes s kw.
Proof.
  intros Hkw. unfold trim. now rewrite includes_trimEnd, includes_trimStart.
Qed.

Lemma plainKeyword_lower (kw : jsstring) :
  plainKeyword kw = true -> toLowerCase kw = kw.
Proof.
  unfold plainKeyword. destruct kw; [discriminate|]. destruct (rev _); [discriminate|].
  intros H. apply andb_prop in H as [_ H]. now apply bool_decide_eq_true in H.
Qed.

(** The loops of the Twilio parsers compute the resolution that the
    specification words, on a table of plain keywords. *)
Lemma firstKey_parseCategory (table : keywordTable) (speech : jsstring) :
  plainTable table = true ->
  firstKey table (trim (toLowerCase speech)) = parseCategory table speech.
Proof.
  unfold firstKey, parseCategory. intros Ht. f_equal.
  induction table as [|entry table IH]; [reflexivity|].
  cbn [plainTable forallb] in Ht. apply andb_prop in Ht as [He Ht].
  cbn [find]. rewrite (IH Ht).
  replace (existsb (fun kw => includes (trim (toLowerCase speech)) (str kw)) (snd entry))
    with (existsb (fun kw => containsIgnoringCase speech (str kw)) (snd entry));
    [reflexivity|].
  induction (snd entry) as [|kw kws IHk]; [reflexivity|].
  cbn [forallb] in He. apply andb_prop in He as [Hkw He].
  cbn [existsb]. rewrite (IHk He). f_equal.
  unfold containsIgnoringCase.
  now rewrite (plainKeyword_lower _ Hkw), includes_trim.
Qed.

Lemma parseVerticalSelection_parseCategory (speech : jsstring) :
  parseVerticalSelection speech = parseCategory verticals speech.
Proof. apply firstKey_parseCategory. vm_compute. reflexivity. Qed.

Lemma parsePainSelection_parseCategory (speech : jsstring) :
  parsePainSelection speech = parseCategory pains speech.
Proof. apply firstKey_parseCategory. vm_compute. reflexivity. Qed.

Ltac lower_keywords :=
  repeat match goal with
    | |- context [toLowerCase (str ?kw)] => change (toLowerCase (str kw)) with (str kw)
    end.

Lemma normalizeVertical_parseCategory (input : jsstring) :
  Retell.normalizeVertical input =
  default "other"%string (parseCategory retellVerticals input).
Proof.
  unfold Retell.normalizeVertical, Retell.has, parseCategory, retellVerticals,
    containsIgnoringCase.
  cbn [find existsb snd fst]. lower_keywords.
  repeat (match goal with
          | |- context [includes (toLowerCase input) ?kw] =>
              destruct (includes (toLowerCase input) kw)
          end; cbn [orb fmap option_fmap option_map default fst]; try reflexivity).
Qed.

Lemma normalizePain_parseCategory (input : jsstring) :
  Retell.normalizePain input =
  default "other"%string (parseCategory retellPains input).
Proof.
  unfold Retell.normalizePain, Retell.has, parseCategory, retellPains,
    containsIgnoringCase.
  cbn [find existsb snd fst]. lower_keywords.
  repeat (match goal with
          | |- context [includes (toLowerCase input) ?kw] =>
              destruct (includes (toLowerCase input) kw)
          end; cbn [orb fmap option_fmap option_map default fst]; try reflexivity).
Qed.

(** C4, as the specification states it, fails in the Retell call flow: no
    keyword of its tables occurs in "hello", and the vertical and the pain
    point are resolved to the default key "other". *)
Lemma normalize_defaults_to_other :
  parseCategory retellVerticals (str "hello") = None /\
  Retell.normalizeVertical (str "hello") = "other"%string /\
  parseCategory retellPains (str "hello") = None /\
  Retell.normalizePain (str "hello") = "other"%string.
Proof. repeat split; vm_compute; reflexivity. Qed.

(** C4, amended.  In the Twilio call flow the vertical and the pain point
    are the key of the first entry of their table, in table order, one of
    whose keywords is a substring of the transcript, case ignored, and
    nothing when there is no such entry.  In the Retell call flow they are
    resolved in the same way against the tables of that flow, and a
    transcript without any keyword gets the key "other". *)
Theorem category_resolution (transcript : jsstring) :
  parseVerticalSelection transcript = parseCategory verticals transcript /\
  parsePainSelection transcript = parseCategory pains transcript /\
  Retell.normalizeVertical transcript =
    default "other"%string (parseCategory retellVerticals transcript) /\
  Retell.normalizePain transcript =
    default "other"%string (parseCategory retellPains transcript).
Proof.
  split; [|split; [|split]].
  - apply parseVerticalSelection_parseCategory.
  - apply parsePainSelection_parseCategory.
  - apply normalizeVertical_parseCategory.
  - apply normalizePain_parseCategory.
Qed.

(** The resolution depends on the order of the table: a transcript with
    keywords of two entries gets the key of the earlier entry. *)
Example parseVerticalSelection_table_order :
  parseVerticalSelection (str "Insurance for real estate") = Some "real_estate"%string /\
  parsePainSelection (str "slow pickup rates") = Some "low_answer_rates"%string.
Proof. split; vm_compute; reflexivity. Qed.

End Categories.

(** ** The answer to the offer of an appointment *)

Section Schedule.
Import JS.

(** In the Retell call flow an answer is a yes exactly when it contains,
    case ignored, one of the seven words. *)
Lemma isYes_iff (answer : jsstring) :
  Retell.isYes answer = true <->
  exists w, In w Retell.yesWords /\ includes (toLowerCase answer) (str w) = true.
Proof. unfold Retell.isYes. apply List.existsb_exists. Qed.

(** C8.  The answer "absolutely" is a yes in the Retell call flow and a no
    in the route [/schedule] of the Twilio call flow, which looks for five
    of the seven words only; so is "definitely". *)
Theorem schedule_absolutely :
  Retell.handleScheduleAppointment (str "session") (str "absolutely") =
    ["schedule_requested"; "appointment_scheduled"]%string /\
  Twilio.schedule (str "absolutely") = ["schedule_declined"; "demo_completed"]%string /\
  Twilio.wantsSchedule (str "definitely") = false /\
  Retell.isYes (str "definitely") = true.
Proof. repeat split; vm_compute; reflexivity. Qed.

End Schedule.

(** ** The rate limiter *)

Section RateLimiter.
Import Session.
Local Open Scope Z_scope.

Variable cfg : Config.
Variable caller : string.

Lemma lookup_setRateLimit (d : Db) (r : RateLimit) :
  rateLimits (setRateLimit d caller r) !! caller = Some r.
Proof. unfold setRateLimit. cbn [rateLimits]. apply lookup_insert_eq. Qed.

Lemma upsertFailure_unlocked (k now : Z) (d : Db) :
  unlockedWith caller k d -> upsertFailure d now caller = mkRateLimit (k + 1) now None.
Proof.
  unfold unlockedWith, upsertFailure.
  destruct (rateLimits d !! caller) as [[f l u]|]; cbn.
  - intros [-> ->]. reflexivity.
  - intros ->. reflexivity.
Qed.

(** A failure below the maximum is counted and does not lock. *)
Lemma recordFailedAttempt_counts (k now : Z) (d : Db) :
  unlockedWith caller k d -> k + 1 < maxAttempts cfg ->
  unlockedWith caller (k + 1) (snd (recordFailedAttempt cfg d now caller)).
Proof.
  intros Hk Hlt. unfold recordFailedAttempt.
  rewrite (upsertFailure_unlocked k now d Hk). cbn [failedAttempts].
  destruct (Z.leb_spec (maxAttempts cfg) (k + 1)); [lia|].
  cbn [snd]. unfold unlockedWith. rewrite lookup_setRateLimit. now cbn.
Qed.

(** The failure that reaches the maximum locks the caller out. *)
Lemma recordFailedAttempt_locks (k now : Z) (d : Db) :
  unlockedWith caller k d -> k + 1 = maxAttempts cfg ->
  recordFailedAttempt cfg d now caller =
  (mkFailed true (Some (now + lockoutSeconds cfg * 1000)),
   setRateLimit d caller
     (mkRateLimit (maxAttempts cfg) now (Some (now + lockoutSeconds cfg * 1000)))).
Proof.
  intros Hk Heq. unfold recordFailedAttempt.
  rewrite (upsertFailure_unlocked k now d Hk). cbn [failedAttempts lastAttemptAt].
  destruct (Z.leb_spec (maxAttempts cfg) (k + 1)); [|lia].
  now rewrite Heq.
Qed.

Lemma recordFailures_app (ts1 ts2 : list Z) (d : Db) :
  recordFailures cfg caller (ts1 ++ ts2) d =
  recordFailures cfg caller ts2 (recordFailures cfg caller ts1 d).
Proof. unfold recordFailures. apply List.fold_left_app. Qed.

Lemma recordFailures_counts (ts : list Z) :
  forall (k : Z) (d : Db),
    unlockedWith caller k d -> k + Z.of_nat (length ts) < maxAttempts cfg ->
    unlockedWith caller (k + Z.of_nat (length ts)) (recordFailures cfg caller ts d).
Proof.
  induction ts as [|t ts IH]; intros k d Hk Hlt.
  - cbn. now rewrite Z.add_0_r.
  - cbn [length] in *. rewrite Nat2Z.inj_succ in *.
    change (recordFailures cfg caller (t :: ts) d)
      with (recordFailures cfg caller ts (snd (recordFailedAttempt cfg d t caller))).
    replace (k + Z.succ (Z.of_nat (length ts))) with (k + 1 + Z.of_nat (length ts)) by lia.
    apply IH; [|lia]. apply recordFailedAttempt_counts; [exact Hk | lia].
Qed.

(** C3.  From no row for the caller, [maxAttempts] failures in a row, the
    last of them at the time [tlast], lock the caller out until [tlast]
    plus the lock-out duration, a time after [tlast].  Before that time
    [checkRateLimit] refuses and reports it, and changes nothing.  From
    that time on [checkRateLimit] allows the caller with the full number of
    attempts and leaves a row with no failure and no lock-out. *)
Theorem rate_limit_lockout (d : Db) (ts : list Z) (tlast : Z) :
  rateLimits d !! caller = None ->
  Z.of_nat (length ts) + 1 = maxAttempts cfg ->
  0 < lockoutSeconds cfg ->
  let d' := recordFailures cfg caller (ts ++ [tlast]) d in
  let until := tlast + lockoutSeconds cfg * 1000 in
  tlast < until /\
  (forall now, now < until ->
     checkRateLimit cfg d' now caller = (mkCheck false None (Some until), d')) /\
  (forall now, until <= now ->
     allowed (fst (checkRateLimit cfg d' now caller)) = true /\
     remainingAttempts (fst (checkRateLimit cfg d' now caller)) = Some (maxAttempts cfg) /\
     exists r, rateLimits (snd (checkRateLimit cfg d' now caller)) !! caller = Some r /\
               failedAttempts r = 0 /\ lockedUntil r = None).
Proof.
  intros Hnone Hlen Hlock d' until.
  assert (H0 : unlockedWith caller 0 d) by (unfold unlockedWith; now rewrite Hnone).
  assert (Hts : unlockedWith caller (Z.of_nat (length ts)) (recordFailures cfg caller ts d)).
  { apply (recordFailures_counts ts 0 d H0). lia. }
  assert (Hd' : rateLimits d' !! caller =
                Some (mkRateLimit (maxAttempts cfg) tlast (Some until))).
  { subst d'. rewrite recordFailures_app.
    change (recordFailures cfg caller [tlast] ?x)
      with (snd (recordFailedAttempt cfg x tlast caller)).
    rewrite (recordFailedAttempt_locks _ tlast _ Hts Hlen). cbn [snd].
    apply lookup_setRateLimit. }
  split; [subst until; lia|]. split.
  - intros now Hnow. unfold checkRateLimit. rewrite Hd'. cbn [lockedUntil].
    destruct (Z.ltb_spec now until); [reflexivity | lia].
  - intros now Hnow. unfold checkRateLimit. rewrite Hd'. cbn [lockedUntil].
    destruct (Z.ltb_spec now until); [lia|]. cbn [fst snd allowed remainingAttempts].
    repeat split. eexists. rewrite lookup_setRateLimit. now cbn.
Qed.

End RateLimiter.

Lemma rate_limit_lockout_witness :
  let cfg := Session.mkConfig 10 30 3 60 in
  let d' := Session.recordFailures cfg "+15550001111"
              [1000; 2000; 3000]%Z (Session.mkDb [] [] ∅) in
  (3000 < 63000)%Z /\
  (forall now, (now < 63000)%Z ->
     Session.checkRateLimit cfg d' now "+15550001111" =
     (Session.mkCheck false None (Some 63000%Z), d')) /\
  (forall now, (63000 <= now)%Z ->
     Session.allowed (fst (Session.checkRateLimit cfg d' now "+15550001111")) = true /\
     Session.remainingAttempts (fst (Session.checkRateLimit cfg d' now "+15550001111")) = Some 3%Z /\
     exists r, Session.rateLimits (snd (Session.checkRateLimit cfg d' now "+15550001111"))
                 !! "+15550001111"%string = Some r /\
               Session.failedAttempts r = 0%Z /\ Session.lockedUntil r = None).
Proof.
  apply (rate_limit_lockout (Session.mkConfig 10 30 3 60) "+15550001111"
           (Session.mkDb [] [] ∅) [1000; 2000]%Z 3000%Z).
  - reflexivity.
  - reflexivity.
  - reflexivity.
Defined.

(** ** Sessions *)

Section Sessions.
Import Session.
Local Open Scope Z_scope.

Variable cfg : Config.

(** The first match of a test is also the first match of a stronger test
    that it passes. *)
Lemma find_stronger {A} (f g : A -> bool) (l : list A) (x : A) :
  find f l = Some x -> (forall y, g y = true -> f y = true) -> g x = true ->
  find g l = Some x.
Proof.
  intros Hf Hgf Hx. induction l as [|y l IH]; [discriminate|].
  cbn [find] in *. destruct (f y) eqn:Hy.
  - injection Hf as ->. now rewrite Hx.
  - destruct (g y) eqn:Hg; [|now apply IH].
    apply Hgf in Hg. congruence.
Qed.

Lemma find_none {A} (f : A -> bool) (l : list A) :
  (forall y, In y l -> f y = false) -> find f l = None.
Proof.
  induction l as [|y l IH]; intros H; [reflexivity|].
  cbn [find]. rewrite (H y (or_introl eq_refl)).
  apply IH. intros z Hz. apply H. now right.
Qed.

Lemma find_app_none {A} (f : A -> bool) (l1 l2 : list A) :
  find f l1 = None -> find f (l1 ++ l2) = find f l2.
Proof.
  induction l1 as [|y l1 IH]; [reflexivity|]. cbn [find app].
  destruct (f y); [discriminate | exact IH].
Qed.

Lemma find_exists {A} (f : A -> bool) (l : list A) (x : A) :
  In x l -> f x = true -> exists y, find f l = Some y.
Proof.
  intros Hin Hx. destruct (find f l) as [y|] eqn:Hf; [now exists y|].
  rewrite (List.find_none _ _ Hf x Hin) in Hx. discriminate.
Qed.

Lemma isLive_earlier (now later : Z) (s : Session) :
  now <= later -> isLive later s = true -> isLive now s = true.
Proof.
  unfold isLive. intros Hle H. apply andb_prop in H as [Hs Ht].
  rewrite Hs. cbn [andb]. apply Z.ltb_lt in Ht. apply Z.ltb_lt. lia.
Qed.

Lemma findActive_later (d : Db) (now later : Z) (token : string) (e : Session) :
  findActive d now token = Some e -> now <= later -> later < expiresAt e ->
  findActive d later token = Some e.
Proof.
  unfold findActive. intros Hf Hle Hlt.
  pose proof (List.find_some _ _ Hf) as [_ He].
  apply andb_prop in He as [Htok Hlive].
  eapply find_stronger; [exact Hf | |].
  - intros y Hy. apply andb_prop in Hy as [-> Hy]. cbn [andb].
    eapply isLive_earlier; eassumption.
  - rewrite Htok. cbn [andb]. unfold isLive in *.
    apply andb_prop in Hlive as [-> _]. cbn [andb]. now apply Z.ltb_lt.
Qed.

(** C9.  When the store holds a session of the browser that is created,
    paired or active and has not expired, [createSession] returns the
    identifier, the code and the expiry of such a session, the first one
    of the store, and leaves the store as it is, whatever the random draws
    and the identifier at hand; and so does every later call made before
    that session expires. *)
Theorem createSession_idempotent (d : Db) (now : Z) (draws : nat -> N)
        (newId token : string) (s : Session) :
  In s (sessions d) -> browserToken s = token ->
  status s = CREATED \/ status s = PAIRED \/ status s = ACTIVE ->
  now < expiresAt s ->
  exists e,
    In e (sessions d) /\ browserToken e = token /\
    (status e = CREATED \/ status e = PAIRED \/ status e = ACTIVE) /\
    now < expiresAt e /\
    createSession cfg d now draws newId token =
      Some (mkSummary (id e) (pairCode e) (expiresAt e), d) /\
    forall (later : Z) (draws' : nat -> N) (newId' : string),
      now <= later -> later < expiresAt e ->
      createSession cfg d later draws' newId' token =
        Some (mkSummary (id e) (pairCode e) (expiresAt e), d).
Proof.
  intros Hin Htok Hstatus Hexp.
  assert (Hlive : isLive now s = true).
  { unfold isLive. rewrite bool_decide_eq_true_2 by exact Hstatus. now apply Z.ltb_lt. }
  destruct (find_exists
              (fun x => bool_decide (browserToken x = token) && isLive now x)
              (sessions d) s Hin) as [e He].
  { rewrite Htok, bool_decide_eq_true_2 by reflexivity. exact Hlive. }
  exists e. pose proof (List.find_some _ _ He) as [Hine Hpe].
  apply andb_prop in Hpe as [Ht Hl]. apply bool_decide_eq_true in Ht.
  unfold isLive in Hl. apply andb_prop in Hl as [Hs Hx].
  apply bool_decide_eq_true in Hs. apply Z.ltb_lt in Hx.
  split; [exact Hine|]. split; [exact Ht|]. split; [exact Hs|]. split; [exact Hx|].
  split.
  - unfold createSession, findActive. now rewrite He.
  - intros later draws' newId' Hle Hlt. unfold createSession.
    now rewrite (findActive_later d now later token e He Hle Hlt).
Qed.

(** Two calls in a row: the second call, made before the session that the
    first call returned expires, returns the same summary and changes
    nothing. *)
Lemma createSession_twice (d d1 : Db) (t1 t2 : Z) (draws1 draws2 : nat -> N)
      (id1 id2 token : string) (r1 : SessionSummary) :
  createSession cfg d t1 draws1 id1 token = Some (r1, d1) ->
  t1 <= t2 -> t2 < sum_expiresAt r1 ->
  createSession cfg d1 t2 draws2 id2 token = Some (r1, d1).
Proof.
  unfold createSession. intros H Hle Hlt.
  destruct (findActive d t1 token) as [e|] eqn:He.
  - injection H as <- <-. cbn [summary sum_expiresAt] in Hlt.
    now rewrite (findActive_later d t1 t2 token e He Hle Hlt).
  - destruct (generateUniquePairCode d t1 draws1) as [code|]; [|discriminate].
    injection H as <- <-. cbn [summary sum_expiresAt] in Hlt.
    set (new := mkSession id1 token code CREATED _ None None None None) in *.
    assert (Hf : findActive (mkDb (sessions d ++ [new]) (events d) (rateLimits d)) t2 token
                 = Some new).
    { unfold findActive in *. cbn [sessions].
      rewrite find_app_none.
      - cbn [find]. subst new. unfold isLive. cbn [browserToken status expiresAt].
        rewrite !bool_decide_eq_true_2 by auto. cbn [andb].
        cbn [expiresAt] in Hlt.
        destruct (Z.ltb_spec t2 (t1 + expiryMinutes cfg * 60 * 1000)); [reflexivity | lia].
      - apply find_none. intros y Hy.
        pose proof (List.find_none _ _ He y Hy) as Hn. cbn beta in Hn.
        destruct (bool_decide (browserToken y = token)); [|reflexivity].
        cbn [andb] in *. destruct (isLive t2 y) eqn:Hl; [|reflexivity].
        now rewrite (isLive_earlier t1 t2 y Hle Hl) in Hn. }
    now rewrite Hf.
Qed.

(** Without a session of the browser a new one is created, with the first
    drawn code that no live session has. *)
Example createSession_new :
  let taken := mkSession "s1" "tab-1" "0042" CREATED 600000 None None None None in
  createSession cfg (mkDb [taken] [] ∅) 1000
    (fun i => match i with O => 42%N | _ => 4827%N end) "s2" "tab-2" =
  Some (mkSummary "s2" "4827" (1000 + expiryMinutes cfg * 60 * 1000),
        mkDb [taken; mkSession "s2" "tab-2" "4827" CREATED
                       (1000 + expiryMinutes cfg * 60 * 1000) None None None None]
             [] ∅).
Proof. reflexivity. Qed.

End Sessions.

Lemma createSession_idempotent_witness :
  let cfg := Session.mkConfig 10 30 3 60 in
  let s := Session.mkSession "s1" "tab-1" "4827" Session.PAIRED 600000
             (Some "+15550001111"%string) (Some "Ann"%string) (Some "CA1"%string)
             (Some 600000%Z) in
  let d := Session.mkDb [s] [] ∅ in
  Session.createSession cfg d 1000 (fun _ => 1234%N) "s2" "tab-1" =
    Some (Session.mkSummary "s1" "4827" 600000, d) /\
  forall (later : Z) (draws' : nat -> N) (newId' : string),
    (1000 <= later)%Z -> (later < 600000)%Z ->
    Session.createSession cfg d later draws' newId' "tab-1" =
      Some (Session.mkSummary "s1" "4827" 600000, d).
Proof.
  intros cfg s d.
  destruct (createSession_idempotent cfg d 1000 (fun _ => 1234%N) "s2" "tab-1" s)
    as (e & Hin & _ & _ & _ & Hfirst & Hlater).
  - left. reflexivity.
  - reflexivity.
  - right. left. reflexivity.
  - reflexivity.
  - assert (He : e = s) by (destruct Hin as [E|[]]; symmetry; exact E).
    rewrite He in Hfirst, Hlater. split; [exact Hfirst | exact Hlater].
Defined.

(** ** Two callers and one code *)

Section Pairing.
Import Session.
Local Open Scope Z_scope.

Variable cfg : Config.

Lemma findSessionByCode_some (d : Db) (now : Z) (code : string) (s : Session) :
  findSessionByCode d now code = Some s ->
  In s (sessions d) /\ pairCode s = code /\ status s = CREATED /\ now < expiresAt s.
Proof.
  unfold findSessionByCode. intros H. apply List.find_some in H as [Hin H].
  apply andb_prop in H as [H Ht]. apply andb_prop in H as [Hc Hs].
  apply bool_decide_eq_true in Hc, Hs. apply Z.ltb_lt in Ht. auto.
Qed.

(** Pairing a session of the store succeeds and leaves no session with its
    identifier in the status [CREATED]. *)
Lemma pairSession_known (d : Db) (now : Z) (s : Session) (number name sid : string) :
  In s (sessions d) ->
  exists s' d',
    pairSession cfg d now (id s) number name sid = Some (s', d') /\
    forall x, In x (sessions d') ->
              (id x = id s /\ status x = PAIRED) \/ (id x <> id s /\ In x (sessions d)).
Proof.
  intros Hin. unfold pairSession, updateSession.
  destruct (find_exists (fun x => bool_decide (id x = id s)) (sessions d) s Hin)
    as [y Hy]; [now apply bool_decide_eq_true_2|].
  rewrite Hy. eexists _, _. split; [reflexivity|].
  cbn [createEvent sessions]. intros x Hx.
  apply List.in_map_iff in Hx as (z & Hz & Hzin).
  destruct (bool_decide_reflect (id z = id s)) as [Hid|Hid]; subst x.
  - left. cbn [id status]. auto.
  - right. auto.
Qed.

(** C2, amended.  When one attempt does its lookup and its pairing before
    the other attempt does its lookup, and the code has one session to be
    found, the first attempt pairs and the second finds no session under
    the code. *)
Theorem pairing_exclusive_in_turn (d : Db) (code : string) (a1 a2 : Attempt)
        (w : Who) (t1 t2 t3 t4 : Z) (s : Session) :
  progress a1 = AtLookup -> progress a2 = AtLookup ->
  findSessionByCode d t1 code = Some s ->
  (forall x, In x (sessions d) -> pairCode x = code -> status x = CREATED ->
             t1 < expiresAt x -> id x = id s) ->
  t1 <= t3 ->
  let final := run cfg code [(w, t1); (w, t2); (other w, t3); (other w, t4)] (d, (a1, a2)) in
  hasPaired (attemptOf w final) = true /\
  sawNoSession (attemptOf (other w) final) = true.
Proof.
  intros Hp1 Hp2 Hfind Huniq Hle.
  destruct (findSessionByCode_some d t1 code s Hfind) as (Hin & _).
  assert (Hgone : forall d', (forall x, In x (sessions d') ->
                     (id x = id s /\ status x = PAIRED) \/ (id x <> id s /\ In x (sessions d))) ->
                   findSessionByCode d' t3 code = None).
  { intros d' Hd'. apply find_none. intros x Hx.
    destruct (Hd' x Hx) as [[_ Hst]|[Hid Hxin]].
    - rewrite Hst. rewrite (bool_decide_eq_false_2 (PAIRED = CREATED)) by discriminate.
      now rewrite andb_false_r.
    - destruct (bool_decide_reflect (pairCode x = code)); [|reflexivity].
      destruct (bool_decide_reflect (status x = CREATED)); [|reflexivity].
      destruct (Z.ltb_spec t3 (expiresAt x)); [|reflexivity].
      exfalso. apply Hid, Huniq; auto. lia. }
  assert (Hturns : forall (a b : Attempt),
             progress a = AtLookup -> progress b = AtLookup ->
             exists s' d',
               advance cfg code t1 d a = (d, setProgress a (Found s)) /\
               advance cfg code t2 d (setProgress a (Found s)) =
                 (d', setProgress a (Finished (Some s'))) /\
               advance cfg code t3 d' b = (d', setProgress b (Finished None)) /\
               advance cfg code t4 d' (setProgress b (Finished None)) =
                 (d', setProgress b (Finished None))).
  { intros a b Ha Hb.
    destruct (pairSession_known d t2 s (att_callerNumber a) (att_callerName a)
                (att_callSid a) Hin) as (s' & d' & Hpair & Hd').
    exists s', d'. unfold advance.
    rewrite Ha, Hb, Hfind, (Hgone d' Hd'). cbn [setProgress progress
      att_callerNumber att_callerName att_callSid]. rewrite Hpair. auto. }
  cbv zeta. unfold run. destruct w; cbn [other].
  - destruct (Hturns a1 a2 Hp1 Hp2) as (s' & d' & E1 & E2 & E3 & E4).
    cbn [fold_left]. cbn [turn fst snd]. rewrite E1. cbn [turn fst snd].
    rewrite E2. cbn [turn fst snd]. rewrite E3. cbn [turn fst snd]. rewrite E4.
    split; reflexivity.
  - destruct (Hturns a2 a1 Hp2 Hp1) as (s' & d' & E1 & E2 & E3 & E4).
    cbn [fold_left]. cbn [turn fst snd]. rewrite E1. cbn [turn fst snd].
    rewrite E2. cbn [turn fst snd]. rewrite E3. cbn [turn fst snd]. rewrite E4.
    split; reflexivity.
Qed.

End Pairing.

(** C2, as the specification states it, fails: [pairSession] updates the
    session whatever its status.  When both attempts do their lookup before
    either pairs, both find the session and both pair it; the session keeps
    the caller of the second pairing and two events ["paired"] are logged. *)
Lemma both_attempts_pair_when_interleaved :
  let cfg := Session.mkConfig 10 30 3 60 in
  let s := Session.mkSession "s1" "tab-1" "4827" Session.CREATED 600000 None None None None in
  let d := Session.mkDb [s] [] ∅ in
  let ann := Session.mkAttempt "+15550001111" "Ann" "CA1" Session.AtLookup in
  let bob := Session.mkAttempt "+15550002222" "Bob" "CA2" Session.AtLookup in
  let final :=
    Session.run cfg "4827"
      [(Session.First, 1000); (Session.Second, 1001);
       (Session.First, 1002); (Session.Second, 1003)]%Z (d, (ann, bob)) in
  Session.hasPaired (Session.attemptOf Session.First final) = true /\
  Session.hasPaired (Session.attemptOf Session.Second final) = true /\
  map Session.callerName (Session.sessions (fst final)) = [Some "Bob"%string] /\
  map Session.type (Session.events (fst final)) = ["paired"; "paired"]%string.
Proof. vm_compute. repeat split. Qed.

Lemma pairing_exclusive_in_turn_witness :
  let cfg := Session.mkConfig 10 30 3 60 in
  let s := Session.mkSession "s1" "tab-1" "4827" Session.CREATED 600000 None None None None in
  let d := Session.mkDb [s] [] ∅ in
  let ann := Session.mkAttempt "+15550001111" "Ann" "CA1" Session.AtLookup in
  let bob := Session.mkAttempt "+15550002222" "Bob" "CA2" Session.AtLookup in
  let final :=
    Session.run cfg "4827"
      [(Session.First, 1000); (Session.First, 1001);
       (Session.Second, 1002); (Session.Second, 1003)]%Z (d, (ann, bob)) in
  Session.hasPaired (Session.attemptOf Session.First final) = true /\
  Session.sawNoSession (Session.attemptOf Session.Second final) = true.
Proof.
  intros cfg s d ann bob.
  apply (pairing_exclusive_in_turn cfg d "4827" ann bob Session.First
           1000 1001 1002 1003 s)%Z.
  - reflexivity.
  - reflexivity.
  - reflexivity.
  - intros x [<-|[]] _ _ _. reflexivity.
  - lia.
Defined.

(* ====================================================================== *)
(** * Further properties of the code *)
(* ====================================================================== *)

(** ** Patterns of letters in transcripts without them *)

Section NoMatch.
Import JS SpeechParser.

Lemma in_allChars (c : ascii) : In c allChars.
Proof.
  unfold allChars. apply List.in_map_iff. exists (nat_of_ascii c).
  split; [apply ascii_nat_embedding|].
  apply List.in_seq. pose proof (nat_ascii_bounded c). lia.
Qed.

Lemma disjointClasses_spec (p q : ascii -> bool) (c : ascii) :
  disjointClasses p q = true -> p c = true -> q c = false.
Proof.
  unfold disjointClasses. rewrite List.forallb_forall. intros H Hp.
  specialize (H c (in_allChars c)). rewrite Hp in H.
  now destruct (q c).
Qed.

(** A match is a prefix of the input, followed by what the continuation
    reads. *)
Lemma star_loop_split {R} (p : ascii -> bool) (s : jsstring) :
  forall (prev : option ascii) (k : cont R) (res : R),
    star_loop p prev s k = Some res ->
    exists m rest prev',
      s = m ++ rest /\ Forall (fun c => p c = true) m /\ k prev' rest = Some res.
Proof.
  induction s as [|c s IH]; intros prev k res H.
  - exists [], [], prev. repeat split; [constructor | exact H].
  - cbn [star_loop] in H. destruct (p c) eqn:Hc.
    + destruct (star_loop p (Some c) s k) as [r|] eqn:Hs.
      * destruct (IH _ _ _ Hs) as (m & rest & prev' & -> & Hm & Hk).
        exists (c :: m), rest, prev'. repeat split; [now constructor | congruence].
      * exists [], (c :: s), prev. repeat split; [constructor | exact H].
    + exists [], (c :: s), prev. repeat split; [constructor | exact H].
Qed.

Lemma rmatch_split {R} (r : regex) :
  forall (prev : option ascii) (s : jsstring) (k : cont R) (res : R),
    rmatch r prev s k = Some res ->
    exists m rest prev', s = m ++ rest /\ k prev' rest = Some res.
Proof.
  induction r as [|p|r1 IH1 r2 IH2|r1 IH1 r2 IH2|r1 IH1|p|];
    cbn [rmatch]; intros prev s k res H.
  - now exists [], s, prev.
  - destruct s as [|c s]; [discriminate|]. destruct (p c); [|discriminate].
    now exists [c], s, (Some c).
  - destruct (IH1 _ _ _ _ H) as (m1 & rest1 & prev1 & -> & H1).
    destruct (IH2 _ _ _ _ H1) as (m2 & rest2 & prev2 & -> & H2).
    exists (m1 ++ m2), rest2, prev2. now rewrite <- List.app_assoc.
  - destruct (rmatch r1 prev s k) as [x|] eqn:Hx.
    + apply (IH1 prev s k res). congruence.
    + apply (IH2 prev s k res H).
  - destruct (rmatch r1 prev s k) as [x|] eqn:Hx.
    + apply (IH1 prev s k res). congruence.
    + now exists [], s, prev.
  - destruct (star_loop_split p s prev k res H) as (m & rest & prev' & Hs & _ & Hk).
    now exists m, rest, prev'.
  - destruct (xorb _ _); [|discriminate]. now exists [], s, prev.
Qed.

Lemma rmatch_start {R} (q : ascii -> bool) (r : regex) :
  startsOutside q r = true ->
  forall (prev : option ascii) (s : jsstring) (k : cont R) (res : R),
    rmatch r prev s k = Some res ->
    exists m rest prev', s = m ++ rest /\ startsWell q r m /\ k prev' rest = Some res.
Proof.
  induction r as [|p|r1 IH1 r2 IH2|r1 IH1 r2 IH2|r1 IH1|p|];
    cbn [startsOutside rmatch]; intros Hr prev s k res H.
  - exists [], s, prev. now repeat split.
  - destruct s as [|c s]; [discriminate|].
    destruct (p c) eqn:Hc; [|discriminate].
    exists [c], s, (Some c). repeat split; [|exact H].
    cbn. eapply disjointClasses_spec; eassumption.
  - apply andb_prop in Hr as [Hr1 Hr2].
    destruct (IH1 Hr1 _ _ _ _ H) as (m1 & rest1 & prev1 & -> & Hm1 & H1).
    destruct m1 as [|c m1].
    + cbn in Hm1. rewrite Hm1 in Hr2. cbn in Hr2.
      destruct (IH2 Hr2 _ _ _ _ H1) as (m2 & rest2 & prev2 & E & Hm2 & H2).
      exists m2, rest2, prev2. repeat split; [exact E | | exact H2].
      destruct m2; cbn in *; [now rewrite Hm1, Hm2 | exact Hm2].
    + destruct (rmatch_split r2 _ _ _ _ H1) as (m2 & rest2 & prev2 & -> & H2).
      exists ((c :: m1) ++ m2), rest2, prev2. repeat split.
      * now rewrite <- List.app_assoc.
      * exact Hm1.
      * exact H2.
  - apply andb_prop in Hr as [Hr1 Hr2].
    destruct (rmatch r1 prev s k) as [x|] eqn:Hx.
    + destruct (IH1 Hr1 prev s k res) as (m & rest & prev' & E & Hm & Hk); [congruence|].
      exists m, rest, prev'. repeat split; [exact E | | exact Hk].
      destruct m; cbn in *; [now rewrite Hm | exact Hm].
    + destruct (IH2 Hr2 prev s k res H) as (m & rest & prev' & E & Hm & Hk).
      exists m, rest, prev'. repeat split; [exact E | | exact Hk].
      destruct m; cbn in *; [rewrite Hm; apply orb_true_r | exact Hm].
  - destruct (rmatch r1 prev s k) as [x|] eqn:Hx.
    + destruct (IH1 Hr prev s k res) as (m & rest & prev' & E & Hm & Hk); [congruence|].
      exists m, rest, prev'. repeat split; [exact E | | exact Hk].
      destruct m; cbn in *; [reflexivity | exact Hm].
    + exists [], s, prev. now repeat split.
  - destruct (star_loop_split p s prev k res H) as (m & rest & prev' & E & Hm & Hk).
    exists m, rest, prev'. repeat split; [exact E | | exact Hk].
    destruct m as [|c m]; cbn; [reflexivity|].
    inversion Hm; subst. eapply disjointClasses_spec; eassumption.
  - destruct (xorb _ _); [|discriminate]. exists [], s, prev. now repeat split.
Qed.

Lemma exec_foreign (q : ascii -> bool) (r : regex) (prev : option ascii) (s : jsstring) :
  foreignTo q r = true -> madeOf q s -> exec r prev s = None.
Proof.
  unfold foreignTo. intros Hr Hs. apply andb_prop in Hr as [Hso Hn].
  destruct (exec r prev s) as [n|] eqn:He; [|reflexivity].
  unfold exec in He.
  destruct (rmatch_start q r Hso _ _ _ _ He) as (m & rest & _ & -> & Hm & _).
  destruct m as [|c m]; cbn in Hm.
  - rewrite Hm in Hn. discriminate.
  - inversion Hs; subst. congruence.
Qed.

Lemma replace_from_foreign (q : ascii -> bool) (r : regex) (f : jsstring -> jsstring) :
  foreignTo q r = true ->
  forall (s : jsstring) (prev : option ascii),
    madeOf q s -> replace_from r f prev 0 s = s.
Proof.
  intros Hr. induction s as [|c s IH]; intros prev Hs.
  - cbn [replace_from]. now rewrite (exec_foreign q r prev [] Hr Hs).
  - cbn [replace_from]. rewrite (exec_foreign q r prev (c :: s) Hr Hs).
    inversion Hs; subst. now rewrite IH.
Qed.

(** A pattern that is foreign to the characters of a string leaves it as it is. *)
Lemma replaceAll_foreign (q : ascii -> bool) (r : regex) (t s : jsstring) :
  foreignTo q r = true -> madeOf q s -> replaceAll r t s = s.
Proof. intros Hr Hs. now apply (replace_from_foreign q). Qed.

Lemma replaceWords_foreign (q : ascii -> bool) (table : list (string * string)) :
  wordsForeignTo q table = true ->
  forall s : jsstring, madeOf q s -> replaceWords table s = s.
Proof.
  unfold replaceWords. induction table as [|wd table IH]; intros Ht s Hs; [reflexivity|].
  cbn [wordsForeignTo forallb] in Ht. apply andb_prop in Ht as [Hw Ht].
  cbn [fold_left]. rewrite (replaceAll_foreign q _ _ s Hw Hs). now apply IH.
Qed.

End NoMatch.

(** ** Digits through the stages of the parsers *)

Section DigitsThrough.
Import JS SpeechParser.

Lemma toLowerChar_digit (c : ascii) : isDigit (toLowerChar c) = isDigit c.
Proof. destruct c as [[] [] [] [] [] [] [] []]; reflexivity. Qed.

Lemma toLowerChar_fixes_digit (c : ascii) : isDigit c = true -> toLowerChar c = c.
Proof. destruct c as [[] [] [] [] [] [] [] []]; intros H; try reflexivity; discriminate H. Qed.

Lemma toLowerChar_letter (c : ascii) : isLetter (toLowerChar c) = isLetter c.
Proof. destruct c as [[] [] [] [] [] [] [] []]; reflexivity. Qed.

Lemma space_not_digit (c : ascii) : isSpace c = true -> isDigit c = false.
Proof. destruct c as [[] [] [] [] [] [] [] []]; intros H; try reflexivity; discriminate H. Qed.

Lemma digit_not_letter (c : ascii) : isDigit c = true -> notLetter c = true.
Proof. destruct c as [[] [] [] [] [] [] [] []]; intros H; try reflexivity; discriminate H. Qed.

Lemma filter_digits_toLowerCase (s : jsstring) :
  List.filter isDigit (toLowerCase s) = List.filter isDigit s.
Proof.
  unfold toLowerCase. induction s as [|c s IH]; [reflexivity|].
  cbn [map List.filter]. rewrite toLowerChar_digit, IH.
  destruct (isDigit c) eqn:Hc; [|reflexivity]. now rewrite toLowerChar_fixes_digit.
Qed.

Lemma filter_digits_spaces (ws : jsstring) :
  Forall (fun c => isSpace c = true) ws -> List.filter isDigit ws = [].
Proof.
  induction 1 as [|c ws Hc _ IH]; [reflexivity|].
  cbn [List.filter]. now rewrite (space_not_digit c Hc).
Qed.

(** [trim] removes white space at the two ends and nothing else. *)
Lemma trim_split (s : jsstring) :
  exists a b, s = a ++ trim s ++ b /\
              Forall (fun c => isSpace c = true) a /\
              Forall (fun c => isSpace c = true) b.
Proof.
  unfold trim, trimEnd, trimStart.
  destruct (dropWhile_split isSpace s) as (a & Ha & Hsa).
  destruct (dropWhile_split isSpace (rev (dropWhile isSpace s))) as (b & Hb & Hsb).
  exists a, (rev b). repeat split.
  - rewrite <- List.rev_app_distr, <- Hb, List.rev_involutive. exact Ha.
  - exact Hsa.
  - now apply List.Forall_rev.
Qed.

Lemma filter_digits_trim (s : jsstring) :
  List.filter isDigit (trim s) = List.filter isDigit s.
Proof.
  destruct (trim_split s) as (a & b & Hs & Ha & Hb).
  rewrite Hs at 2. rewrite !List.filter_app.
  now rewrite (filter_digits_spaces a Ha), (filter_digits_spaces b Hb), List.app_nil_r.
Qed.

Lemma madeOf_trim (q : ascii -> bool) (s : jsstring) : madeOf q s -> madeOf q (trim s).
Proof.
  destruct (trim_split s) as (a & b & Hs & _ & _). unfold madeOf.
  rewrite Hs at 1. intros H.
  apply List.Forall_app in H as [_ H]. now apply List.Forall_app in H as [H _].
Qed.

Lemma madeOf_notLetter_toLowerCase (s : jsstring) :
  madeOf notLetter s -> madeOf notLetter (toLowerCase s).
Proof.
  unfold madeOf, toLowerCase, notLetter. intros H. apply List.Forall_map.
  eapply List.Forall_impl; [|exact H]. intros c Hc. now rewrite toLowerChar_letter.
Qed.

Lemma countDigits_trim (s : jsstring) : countDigits (trim s) = countDigits s.
Proof. unfold countDigits. now rewrite filter_digits_trim. Qed.

Lemma countDigits_toLowerCase (s : jsstring) : countDigits (toLowerCase s) = countDigits s.
Proof. unfold countDigits. now rewrite filter_digits_toLowerCase. Qed.

(** Removing the filler phrases of the code step loses no digit. *)
Lemma normalizeCode_keeps_digits (speech : jsstring) :
  countDigits speech <= length (directDigits speech).
Proof.
  unfold directDigits, normalizeCode. rewrite stripNonDigits_filter.
  fold (countDigits (trim (replaceAll hesitations []
          (replaceAll codeFiller [] (toLowerCase (trim speech)))))).
  rewrite countDigits_trim.
  etransitivity; [|apply replaceWith_keeps_digits; vm_compute; reflexivity].
  etransitivity; [|apply replaceWith_keeps_digits; vm_compute; reflexivity].
  rewrite countDigits_toLowerCase, countDigits_trim. apply le_n.
Qed.

Lemma phoneDigits_keeps_digits (speech : jsstring) :
  countDigits speech <= length (phoneDigits speech).
Proof.
  unfold phoneDigits. rewrite stripNonDigits_filter.
  fold (countDigits (replaceWords digitPatterns (trim (replaceAll hesitations []
          (replaceAll phoneFiller [] (toLowerCase (trim speech))))))).
  etransitivity; [|apply replaceWords_keeps_digits; vm_compute; reflexivity].
  rewrite countDigits_trim.
  etransitivity; [|apply replaceWith_keeps_digits; vm_compute; reflexivity].
  etransitivity; [|apply replaceWith_keeps_digits; vm_compute; reflexivity].
  rewrite countDigits_toLowerCase, countDigits_trim. apply le_n.
Qed.

(** Without letters there is no filler phrase and no digit word: the parsers
    are left with the digits of the transcript. *)
Lemma normalizeCode_letter_free (speech : jsstring) :
  madeOf notLetter speech ->
  normalizeCode speech = trim (toLowerCase (trim speech)) /\
  madeOf notLetter (normalizeCode speech).
Proof.
  intros H. unfold normalizeCode.
  assert (H1 : madeOf notLetter (toLowerCase (trim speech)))
    by now apply madeOf_notLetter_toLowerCase, madeOf_trim.
  rewrite (replaceAll_foreign notLetter codeFiller [] _ eq_refl H1).
  rewrite (replaceAll_foreign notLetter hesitations [] _ eq_refl H1).
  split; [reflexivity | now apply madeOf_trim].
Qed.

Lemma directDigits_letter_free (speech : jsstring) :
  madeOf notLetter speech -> directDigits speech = List.filter isDigit speech.
Proof.
  intros H. unfold directDigits.
  destruct (normalizeCode_letter_free speech H) as [-> _].
  now rewrite stripNonDigits_filter, filter_digits_trim, filter_digits_toLowerCase,
    filter_digits_trim.
Qed.

Lemma phoneDigits_letter_free (speech : jsstring) :
  madeOf notLetter speech -> phoneDigits speech = List.filter isDigit speech.
Proof.
  intros H. unfold phoneDigits.
  assert (H1 : madeOf notLetter (toLowerCase (trim speech)))
    by now apply madeOf_notLetter_toLowerCase, madeOf_trim.
  rewrite (replaceAll_foreign notLetter phoneFiller [] _ eq_refl H1).
  rewrite (replaceAll_foreign notLetter hesitations [] _ eq_refl H1).
  rewrite (replaceWords_foreign notLetter digitPatterns eq_refl _ (madeOf_trim _ _ H1)).
  now rewrite stripNonDigits_filter, filter_digits_trim, filter_digits_toLowerCase,
    filter_digits_trim.
Qed.

End DigitsThrough.

(** ** What the parsers accept *)

Section Accepting.
Import JS SpeechParser.

Lemma translatedDigits_letter_free (speech : jsstring) :
  madeOf notLetter speech -> translatedDigits speech = List.filter isDigit speech.
Proof.
  intros H. unfold translatedDigits.
  destruct (normalizeCode_letter_free speech H) as [E Hn].
  rewrite (replaceWords_foreign notLetter digitPatterns eq_refl _ Hn).
  now apply directDigits_letter_free.
Qed.

(** X1.  A transcript without letters that has exactly four digit
    characters, such as the code typed out or read with pauses and
    hyphens, is parsed to these four digits, in their order. *)
Theorem parseSpokenCode_letter_free_four_digits (speech : jsstring) :
  madeOf notLetter speech ->
  length (List.filter isDigit speech) = 4 ->
  parseSpokenCode speech =
  mkParseResult true (Some (List.filter isDigit speech)) (trim speech)
                (Some (List.filter isDigit speech)).
Proof.
  intros Hfree Hlen. rewrite parseSpokenCode_stages.
  destruct speech as [|a speech]; [discriminate Hlen|].
  rewrite (directDigits_letter_free _ Hfree), Hlen. reflexivity.
Qed.

Lemma parseSpokenCode_letter_free_four_digits_witness :
  parseSpokenCode (str " 48-27 ") =
  mkParseResult true (Some (str "4827")) (str "48-27") (Some (str "4827")).
Proof.
  apply (parseSpokenCode_letter_free_four_digits (str " 48-27 ")).
  - unfold madeOf. repeat constructor.
  - reflexivity.
Defined.

(** X2.  A transcript with at least four digit characters is never
    rejected, whatever else it contains. *)
Theorem parseSpokenCode_accepts_four_digit_characters (speech : jsstring) :
  4 <= countDigits speech -> success (parseSpokenCode speech) = true.
Proof.
  intros H. rewrite parseSpokenCode_stages.
  destruct speech as [|a speech]; [cbn in H; lia|].
  set (s := a :: speech) in *.
  pose proof (normalizeCode_keeps_digits s) as Hd.
  pose proof (directDigits_le_translated s) as Ht.
  destruct (Nat.eqb_spec (length (directDigits s)) 4); [reflexivity|].
  destruct (Nat.eqb_spec (length (translatedDigits s)) 4); [reflexivity|].
  destruct (compoundIsCode s); [reflexivity|].
  destruct (Nat.ltb_spec 4 (length (translatedDigits s))); [reflexivity | lia].
Qed.

Lemma parseSpokenCode_accepts_four_digit_characters_witness :
  success (parseSpokenCode (str "room 12, code 4827 please")) = true.
Proof.
  apply (parseSpokenCode_accepts_four_digit_characters (str "room 12, code 4827 please")).
  vm_compute. lia.
Defined.

(** [parsePhoneNumber] in terms of the digits it is left with. *)
Lemma parsePhoneNumber_numberOfDigits (speech : jsstring) :
  parsePhoneNumber speech =
  mkPhoneParseResult (bool_decide (is_Some (numberOfDigits (phoneDigits speech))))
                     (numberOfDigits (phoneDigits speech)) (trim speech).
Proof.
  unfold parsePhoneNumber, numberOfDigits.
  destruct speech as [|a speech]; [reflexivity|].
  set (d := phoneDigits (a :: speech)).
  destruct (length d =? 10); [reflexivity|].
  destruct ((length d =? 11) && _); [reflexivity|].
  destruct (10 <? length d); reflexivity.
Qed.

Lemma normalizePhoneNumber_numberOfDigits (input : jsstring) :
  Retell.normalizePhoneNumber input = numberOfDigits (stripNonDigits input).
Proof. reflexivity. Qed.

Lemma sliceLast_digits (n : nat) (d : jsstring) : isDigits d -> isDigits (sliceLast n d).
Proof. unfold sliceLast. apply list.Forall_drop. Qed.

(** A number is [+1] and ten digits. *)
Lemma numberOfDigits_shape (d n : jsstring) :
  isDigits d -> numberOfDigits d = Some n ->
  exists t, n = str "+1" ++ t /\ length t = 10 /\ isDigits t.
Proof.
  unfold numberOfDigits. intros Hd.
  destruct (Nat.eqb_spec (length d) 10) as [H10|H10].
  { intros [= <-]. now exists d. }
  destruct (Nat.eqb_spec (length d) 11) as [H11|H11]; cbn [andb].
  - destruct (bool_decide_reflect (head d = Some "1"%char)) as [H1|H1].
    + intros [= <-]. destruct d as [|c t]; [discriminate|].
      cbn in H1. injection H1 as ->. exists t. repeat split.
      * cbn in H11. lia.
      * now inversion Hd.
    + replace (10 <? length d) with true by (symmetry; apply Nat.ltb_lt; lia).
      intros [= <-]. exists (sliceLast 10 d). repeat split.
      * apply sliceLast_length. lia.
      * now apply sliceLast_digits.
  - destruct (Nat.ltb_spec 10 (length d)); [|discriminate].
    intros [= <-]. exists (sliceLast 10 d). repeat split.
    + apply sliceLast_length. lia.
    + now apply sliceLast_digits.
Qed.

Lemma phoneDigits_digits (speech : jsstring) : isDigits (phoneDigits speech).
Proof. apply stripNonDigits_digits. Qed.

Lemma filter_all {A} (p : A -> bool) (l : list A) :
  Forall (fun x => p x = true) l -> List.filter p l = l.
Proof.
  induction 1 as [|x l Hx _ IH]; [reflexivity|].
  cbn [List.filter]. now rewrite Hx, IH.
Qed.

Lemma plus_one_digits (t : jsstring) :
  isDigits t -> List.filter isDigit (str "+1" ++ t) = "1"%char :: t.
Proof. intros H. cbn. now rewrite (filter_all isDigit t H). Qed.

Lemma plus_one_letter_free (t : jsstring) :
  isDigits t -> madeOf notLetter (str "+1" ++ t).
Proof.
  intros H. unfold madeOf. cbn. repeat constructor.
  eapply List.Forall_impl; [|exact H]. apply digit_not_letter.
Qed.

(** X3.  Every number that [parsePhoneNumber] returns has the form [+1]
    followed by exactly ten digits. *)
Theorem parsePhoneNumber_number_shape (speech n : jsstring) :
  number (parsePhoneNumber speech) = Some n ->
  exists t, n = str "+1" ++ t /\ length t = 10 /\ isDigits t.
Proof.
  rewrite parsePhoneNumber_numberOfDigits. cbn [number].
  apply numberOfDigits_shape, phoneDigits_digits.
Qed.

Lemma parsePhoneNumber_number_shape_witness :
  exists t, str "+14155551234" = str "+1" ++ t /\ length t = 10 /\ isDigits t.
Proof.
  apply (parsePhoneNumber_number_shape (str "call me at 415 555 one two three four")).
  vm_compute. reflexivity.
Defined.

(** X4.  On a transcript without letters the parser of the Twilio flow and
    [normalizePhoneNumber] of the Retell flow return the same number, or
    both none. *)
Theorem parsePhoneNumber_agrees_with_normalizePhoneNumber (speech : jsstring) :
  madeOf notLetter speech ->
  number (parsePhoneNumber speech) = Retell.normalizePhoneNumber speech.
Proof.
  intros H. rewrite parsePhoneNumber_numberOfDigits, normalizePhoneNumber_numberOfDigits.
  cbn [number]. now rewrite (phoneDigits_letter_free speech H), stripNonDigits_filter.
Qed.

Lemma parsePhoneNumber_agrees_with_normalizePhoneNumber_witness :
  number (parsePhoneNumber (str "(415) 555-1234")) =
  Retell.normalizePhoneNumber (str "(415) 555-1234").
Proof.
  apply (parsePhoneNumber_agrees_with_normalizePhoneNumber (str "(415) 555-1234")).
  unfold madeOf. repeat constructor.
Defined.

(** X5.  A number that [parsePhoneNumber] has returned is parsed to itself,
    by [parsePhoneNumber] and by [normalizePhoneNumber]. *)
Theorem parsePhoneNumber_reparses_its_number (speech n : jsstring) :
  number (parsePhoneNumber speech) = Some n ->
  number (parsePhoneNumber n) = Some n /\ Retell.normalizePhoneNumber n = Some n.
Proof.
  rewrite parsePhoneNumber_numberOfDigits. cbn [number]. intros H.
  destruct (numberOfDigits_shape _ _ (phoneDigits_digits speech) H)
    as (t & -> & Hlen & Ht).
  assert (E : numberOfDigits ("1"%char :: t) = Some (str "+1" ++ t)).
  { unfold numberOfDigits. cbn [length head]. rewrite Hlen. reflexivity. }
  rewrite parsePhoneNumber_numberOfDigits, normalizePhoneNumber_numberOfDigits.
  cbn [number].
  rewrite (phoneDigits_letter_free _ (plus_one_letter_free t Ht)).
  now rewrite stripNonDigits_filter, (plus_one_digits t Ht).
Qed.

Lemma parsePhoneNumber_reparses_its_number_witness :
  number (parsePhoneNumber (str "+14155551234")) = Some (str "+14155551234") /\
  Retell.normalizePhoneNumber (str "+14155551234") = Some (str "+14155551234").
Proof.
  apply (parsePhoneNumber_reparses_its_number (str "my number is 415 555 1234")).
  vm_compute. reflexivity.
Defined.

(** X6.  A transcript with at least ten digit characters always gives a
    phone number. *)
Theorem parsePhoneNumber_accepts_ten_digit_characters (speech : jsstring) :
  10 <= countDigits speech -> phone_success (parsePhoneNumber speech) = true.
Proof.
  intros H. pose proof (phoneDigits_keeps_digits speech) as Hd.
  rewrite parsePhoneNumber_numberOfDigits. cbn [phone_success].
  apply bool_decide_eq_true. unfold numberOfDigits.
  destruct (Nat.eqb_spec (length (phoneDigits speech)) 10); [eauto|].
  destruct ((length (phoneDigits speech) =? 11) && _); [eauto|].
  destruct (Nat.ltb_spec 10 (length (phoneDigits speech))); [eauto | lia].
Qed.

Lemma parsePhoneNumber_accepts_ten_digit_characters_witness :
  phone_success (parsePhoneNumber (str "it is 415-555-1234, extension 7")) = true.
Proof.
  apply (parsePhoneNumber_accepts_ten_digit_characters
           (str "it is 415-555-1234, extension 7")).
  vm_compute. lia.
Defined.

(** X7.  The spoken form of a number [+1] and ten digits is the ten digits
    in groups of three, three and four; the country code is not spoken, and
    the form is that of the ten digits alone. *)
Theorem formatPhoneForSpeech_groups (t : jsstring) :
  length t = 10 -> isDigits t ->
  Twilio.formatPhoneForSpeech (str "+1" ++ t) =
    firstn 3 t ++ str ", " ++ firstn 3 (skipn 3 t) ++ str ", " ++ skipn 6 t /\
  Twilio.formatPhoneForSpeech (str "+1" ++ t) = Twilio.formatPhoneForSpeech t.
Proof.
  intros Hlen Ht. unfold Twilio.formatPhoneForSpeech.
  rewrite !stripNonDigits_filter, (plus_one_digits t Ht), (filter_all isDigit t Ht).
  cbn [length head]. rewrite Hlen. cbn [Nat.eqb andb].
  rewrite bool_decide_eq_true_2 by reflexivity.
  unfold Twilio.slice. cbn [Nat.sub skipn]. split; reflexivity.
Qed.

Lemma formatPhoneForSpeech_groups_witness :
  Twilio.formatPhoneForSpeech (str "+14155551234") = str "415, 555, 1234" /\
  Twilio.formatPhoneForSpeech (str "+14155551234") =
  Twilio.formatPhoneForSpeech (str "4155551234").
Proof.
  apply (formatPhoneForSpeech_groups (str "4155551234")).
  - reflexivity.
  - unfold isDigits. repeat constructor.
Defined.

(** X8.  A display name has at most 100 characters, all of them letters,
    white space, apostrophes or hyphens; the name of the Retell flow is
    never empty, and the name of the Twilio flow is empty for the empty
    transcript only. *)
Theorem sanitizeName_clean (speech : jsstring) :
  (length (SpeechParser.sanitizeName speech) <= 100 /\
   Forall (fun c => isNameChar c = true) (SpeechParser.sanitizeName speech) /\
   (SpeechParser.sanitizeName speech = [] <-> speech = [])) /\
  (length (Retell.sanitizeName speech) <= 100 /\
   Forall (fun c => isNameChar c = true) (Retell.sanitizeName speech) /\
   Retell.sanitizeName speech <> []).
Proof.
  assert (Hcaller : length (str "Caller") <= 100 /\
                    Forall (fun c => isNameChar c = true) (str "Caller")).
  { split; [cbn; lia | repeat constructor]. }
  assert (Hshape : forall s,
             let n := orCaller (sliceTo 100 (stripSpecial s)) in
             length n <= 100 /\ Forall (fun c => isNameChar c = true) n).
  { intros s. destruct (orCaller_shape s) as [->|H]; [exact Hcaller | exact H]. }
  split.
  - destruct speech as [|a speech].
    + cbn. repeat split; [lia | constructor].
    + unfold SpeechParser.sanitizeName.
      destruct (Hshape (join (map capitalize (splitSpaces
                  (trim (replaceAll nameFillers [] (replaceAll introPhrases []
                     (trim (a :: speech))))))))) as [H1 H2].
      repeat split; [exact H1 | exact H2 | | discriminate].
      intros H. now apply orCaller_nonempty in H.
  - destruct speech as [|a speech].
    + cbn [Retell.sanitizeName]. repeat split; [apply Hcaller | apply Hcaller | discriminate].
    + unfold Retell.sanitizeName.
      destruct (Hshape (join (map capitalize (splitSpaces
                  (trim (replaceAll introPhrases [] (trim (a :: speech)))))))) as [H1 H2].
      repeat split; [exact H1 | exact H2 | apply orCaller_nonempty].
Qed.

End Accepting.

(** ** The rate limiter, further *)

Section RateLimiterFurther.
Import Session.
Local Open Scope Z_scope.

Variable cfg : Config.
Variable caller : string.

Lemma checkRateLimit_unlocked (k now : Z) (d : Db) :
  unlockedWith caller k d -> 0 <= k < maxAttempts cfg ->
  checkRateLimit cfg d now caller = (mkCheck true (Some (maxAttempts cfg - k)) None, d).
Proof.
  unfold unlockedWith, checkRateLimit. intros H Hk.
  destruct (rateLimits d !! caller) as [[f l u]|]; cbn in *.
  - destruct H as [-> ->].
    destruct (Z.ltb_spec 0 (maxAttempts cfg - k)); [|lia].
    now rewrite Z.max_r by lia.
  - subst k. now rewrite Z.sub_0_r.
Qed.

(** X9.  From no row for the caller, a number of failures below the
    maximum leaves the caller allowed, with the maximum less that number of
    attempts remaining; the check changes nothing. *)
Theorem checkRateLimit_remaining (d : Db) (ts : list Z) (now : Z) :
  rateLimits d !! caller = None ->
  Z.of_nat (length ts) < maxAttempts cfg ->
  checkRateLimit cfg (recordFailures cfg caller ts d) now caller =
  (mkCheck true (Some (maxAttempts cfg - Z.of_nat (length ts))) None,
   recordFailures cfg caller ts d).
Proof.
  intros Hnone Hlt. apply checkRateLimit_unlocked; [|lia].
  assert (H0 : unlockedWith caller 0 d) by (unfold unlockedWith; now rewrite Hnone).
  apply (recordFailures_counts cfg caller ts 0 d H0). lia.
Qed.

(** After [clearRateLimit] the caller is allowed with the full number
    of attempts, whatever was on record before, a lock-out included. *)
Theorem clearRateLimit_allows (d : Db) (now : Z) :
  checkRateLimit cfg (clearRateLimit d caller) now caller =
  (mkCheck true (Some (maxAttempts cfg)) None, clearRateLimit d caller).
Proof.
  unfold checkRateLimit, clearRateLimit. cbn [rateLimits].
  now rewrite lookup_delete_eq.
Qed.

Lemma checkRateLimit_lookup (d1 d2 : Db) (now : Z) (other : string) :
  rateLimits d1 !! other = rateLimits d2 !! other ->
  fst (checkRateLimit cfg d1 now other) = fst (checkRateLimit cfg d2 now other).
Proof.
  unfold checkRateLimit. intros ->.
  destruct (rateLimits d2 !! other) as [r|]; [|reflexivity].
  destruct (lockedUntil r) as [u|]; [|reflexivity].
  now destruct (now <? u).
Qed.

Lemma recordFailedAttempt_other (d : Db) (t : Z) (other : string) :
  other <> caller ->
  rateLimits (snd (recordFailedAttempt cfg d t caller)) !! other = rateLimits d !! other.
Proof.
  intros Hne. unfold recordFailedAttempt.
  destruct (maxAttempts cfg <=? _); cbn [snd setRateLimit rateLimits];
    now rewrite lookup_insert_ne.
Qed.

Lemma checkRateLimit_other (d : Db) (t : Z) (other : string) :
  other <> caller ->
  rateLimits (snd (checkRateLimit cfg d t caller)) !! other = rateLimits d !! other.
Proof.
  intros Hne. unfold checkRateLimit.
  destruct (rateLimits d !! caller) as [r|]; [|reflexivity].
  destruct (lockedUntil r) as [u|]; [|reflexivity].
  destruct (t <? u); [reflexivity|].
  cbn [snd setRateLimit rateLimits]. now rewrite lookup_insert_ne.
Qed.

(** X10.  What one caller does to the rate limiter, failing, being checked
    or being cleared, never changes the answer that another caller gets. *)
Theorem rate_limit_per_caller (d : Db) (t now : Z) (other : string) :
  other <> caller ->
  fst (checkRateLimit cfg (snd (recordFailedAttempt cfg d t caller)) now other) =
    fst (checkRateLimit cfg d now other) /\
  fst (checkRateLimit cfg (snd (checkRateLimit cfg d t caller)) now other) =
    fst (checkRateLimit cfg d now other) /\
  fst (checkRateLimit cfg (clearRateLimit d caller) now other) =
    fst (checkRateLimit cfg d now other).
Proof.
  intros Hne. repeat split; apply checkRateLimit_lookup.
  - now apply recordFailedAttempt_other.
  - now apply checkRateLimit_other.
  - unfold clearRateLimit. cbn [rateLimits]. now rewrite lookup_delete_ne.
Qed.

End RateLimiterFurther.

Lemma checkRateLimit_remaining_witness :
  let cfg := Session.mkConfig 10 30 3 60 in
  let d := Session.recordFailures cfg "+15550001111" [1000; 2000]%Z (Session.mkDb [] [] ∅) in
  Session.checkRateLimit cfg d 2500 "+15550001111" =
  (Session.mkCheck true (Some (3 - 2)%Z) None, d).
Proof.
  apply (checkRateLimit_remaining (Session.mkConfig 10 30 3 60) "+15550001111"
           (Session.mkDb [] [] ∅) [1000; 2000]%Z 2500%Z).
  - reflexivity.
  - reflexivity.
Defined.

Lemma rate_limit_per_caller_witness :
  let cfg := Session.mkConfig 10 30 1 60 in
  let d := Session.mkDb [] [] ∅ in
  fst (Session.checkRateLimit cfg
         (snd (Session.recordFailedAttempt cfg d 1000 "+15550001111")) 2000 "+15550002222") =
    fst (Session.checkRateLimit cfg d 2000 "+15550002222") /\
  fst (Session.checkRateLimit cfg
         (snd (Session.checkRateLimit cfg d 1000 "+15550001111")) 2000 "+15550002222") =
    fst (Session.checkRateLimit cfg d 2000 "+15550002222") /\
  fst (Session.checkRateLimit cfg (Session.clearRateLimit d "+15550001111") 2000
         "+15550002222") =
    fst (Session.checkRateLimit cfg d 2000 "+15550002222").
Proof.
  apply (rate_limit_per_caller (Session.mkConfig 10 30 1 60) "+15550001111"
           (Session.mkDb [] [] ∅) 1000 2000 "+15550002222")%Z.
  discriminate.
Defined.

(** ** The store of sessions, further *)

Section StoreFurther.
Import Session.
Local Open Scope Z_scope.

Variable cfg : Config.

Lemma find_map_stable {A} (f : A -> bool) (g : A -> A) (l : list A) :
  (forall x, f (g x) = f x) -> (forall x, f x = true -> g x = x) ->
  find f (map g l) = find f l.
Proof.
  intros Hf Hg. induction l as [|x l IH]; [reflexivity|].
  cbn [map find]. rewrite Hf. destruct (f x) eqn:Hx; [now rewrite Hg | exact IH].
Qed.

Lemma find_none_existsb {A} (f : A -> bool) (l : list A) :
  find f l = None <-> existsb f l = false.
Proof.
  induction l as [|x l IH]; [easy|]. cbn [find existsb].
  destruct (f x); [easy | exact IH].
Qed.

Lemma isOverdue_swept (now : Z) (s : Session) : isOverdue now (swept now s) = false.
Proof.
  unfold swept. destruct (isOverdue now s) eqn:H; [|exact H].
  unfold isOverdue. cbn [setStatus status].
  rewrite bool_decide_eq_false_2; [reflexivity|]. intros [?|[?|?]]; discriminate.
Qed.

Lemma isLive_not_overdue (now t : Z) (s : Session) :
  now <= t -> isLive t s = true -> isOverdue now s = false.
Proof.
  unfold isLive, isOverdue. intros Hle H. apply andb_prop in H as [-> H].
  apply Z.ltb_lt in H. cbn [andb]. apply Z.ltb_ge. lia.
Qed.

Lemma isLive_swept (now t : Z) (s : Session) :
  now <= t -> isLive t (swept now s) = isLive t s.
Proof.
  intros Hle. unfold swept. destruct (isOverdue now s) eqn:Ho; [|reflexivity].
  destruct (isLive t s) eqn:Hl.
  - now rewrite (isLive_not_overdue now t s Hle Hl) in Ho.
  - unfold isLive. cbn [setStatus status].
    rewrite bool_decide_eq_false_2; [reflexivity|]. intros [?|[?|?]]; discriminate.
Qed.

Lemma swept_live (now t : Z) (s : Session) :
  now <= t -> isLive t s = true -> swept now s = s.
Proof.
  intros Hle Hl. unfold swept. now rewrite (isLive_not_overdue now t s Hle Hl).
Qed.

Lemma sweep_count (now : Z) (l : list Session) :
  (length (List.filter (fun s => negb (bool_decide (status s = EXPIRED))) (map (swept now) l))
   + length (List.filter (isOverdue now) l)
   = length (List.filter (fun s => negb (bool_decide (status s = EXPIRED))) l))%nat.
Proof.
  induction l as [|s l IH]; [reflexivity|].
  cbn [map List.filter]. destruct (isOverdue now s) eqn:Ho.
  - assert (Hs : bool_decide (status s = EXPIRED) = false).
    { unfold isOverdue in Ho. apply andb_prop in Ho as [Ho _].
      apply bool_decide_eq_true in Ho. apply bool_decide_eq_false_2.
      destruct Ho as [->|[->| ->]]; discriminate. }
    assert (Hw : bool_decide (status (swept now s) = EXPIRED) = true).
    { unfold swept. rewrite Ho. now apply bool_decide_eq_true_2. }
    rewrite Hs, Hw. cbn [negb length]. lia.
  - assert (Hw : swept now s = s) by (unfold swept; now rewrite Ho).
    rewrite Hw. destruct (negb _); cbn [length]; lia.
Qed.

(** X11.  After the sweep at [now] no session that is created, paired or
    active has an expiry before [now]; the sessions that were not overdue,
    those that expire at [now] or later among them, are as before; no
    session is added or removed; the count is the number of sessions
    changed, and a second sweep at the same time changes none. *)
Theorem cleanupExpiredSessions_sweeps (d : Db) (now : Z) :
  let d' := snd (cleanupExpiredSessions d now) in
  (forall s, In s (sessions d') -> isOverdue now s = false) /\
  (forall s, In s (sessions d) -> now <= expiresAt s -> In s (sessions d')) /\
  map Session.id (sessions d') = map Session.id (sessions d) /\
  fst (cleanupExpiredSessions d now) =
    (length (List.filter (fun s => negb (bool_decide (status s = EXPIRED)))
                         (sessions d))
     - length (List.filter (fun s => negb (bool_decide (status s = EXPIRED)))
                           (sessions d')))%nat /\
  fst (cleanupExpiredSessions d' now) = 0%nat.
Proof.
  cbv zeta. unfold cleanupExpiredSessions. cbn [fst snd withSessions sessions].
  fold (swept now). repeat split.
  - intros s Hs. apply List.in_map_iff in Hs as (x & <- & _). apply isOverdue_swept.
  - intros s Hs Hexp. apply List.in_map_iff. exists s. split; [|exact Hs].
    unfold swept, isOverdue. replace (expiresAt s <? now) with false
      by (symmetry; apply Z.ltb_ge; lia).
    now rewrite andb_false_r.
  - rewrite List.map_map. apply List.map_ext. intros s. unfold swept.
    now destruct (isOverdue now s).
  - pose proof (sweep_count now (sessions d)). lia.
  - rewrite (proj2 (List.length_zero_iff_nil _)); [reflexivity|].
    induction (sessions d) as [|s l IH]; [reflexivity|].
    cbn [map List.filter]. now rewrite isOverdue_swept.
Qed.

(** X12.  The sweep cannot be seen by the lookups made at its time or
    later: [findSessionByCode] and the lookup of [createSession] find what
    they found before it. *)
Theorem cleanupExpiredSessions_keeps_lookups (d : Db) (now t : Z) (key : string) :
  now <= t ->
  let d' := snd (cleanupExpiredSessions d now) in
  findSessionByCode d' t key = findSessionByCode d t key /\
  findActive d' t key = findActive d t key.
Proof.
  intros Hle. cbv zeta. unfold cleanupExpiredSessions, findSessionByCode, findActive.
  cbn [snd withSessions sessions]. fold (swept now). split.
  - apply find_map_stable.
    + intros s. unfold swept. destruct (isOverdue now s) eqn:Ho; [|reflexivity].
      cbn [setStatus pairCode status expiresAt].
      rewrite (bool_decide_eq_false_2 (EXPIRED = CREATED)) by discriminate.
      rewrite andb_false_r. cbn [andb]. unfold isOverdue in Ho.
      apply andb_prop in Ho as [_ Ho]. apply Z.ltb_lt in Ho.
      replace (t <? expiresAt s) with false by (symmetry; apply Z.ltb_ge; lia).
      now rewrite andb_false_r.
    + intros s Hs. apply andb_prop in Hs as [Hs Ht]. apply andb_prop in Hs as [_ Hs].
      apply bool_decide_eq_true in Hs. apply (swept_live now t s Hle).
      unfold isLive. rewrite Ht, Hs, bool_decide_eq_true_2 by auto. reflexivity.
  - apply find_map_stable.
    + intros s. rewrite (isLive_swept now t s Hle). f_equal.
      unfold swept. now destruct (isOverdue now s).
    + intros s Hs. apply andb_prop in Hs as [_ Hs]. now apply (swept_live now t s Hle).
Qed.

Lemma cleanupExpiredSessions_keeps_lookups_witness :
  let old := mkSession "s0" "tab-0" "4827" CREATED 500 None None None None in
  let cur := mkSession "s1" "tab-1" "4827" CREATED 600000 None None None None in
  let d := mkDb [old; cur] [] ∅ in
  let d' := snd (cleanupExpiredSessions d 1000) in
  findSessionByCode d' 2000 "4827" = findSessionByCode d 2000 "4827" /\
  findActive d' 2000 "4827" = findActive d 2000 "4827".
Proof.
  apply (cleanupExpiredSessions_keeps_lookups
           (mkDb [mkSession "s0" "tab-0" "4827" CREATED 500 None None None None;
                  mkSession "s1" "tab-1" "4827" CREATED 600000 None None None None] [] ∅)
           1000 2000 "4827").
  lia.
Defined.

End StoreFurther.

(** ** Pairing codes *)

Section PairingCodes.
Import Session.
Local Open Scope Z_scope.

Variable cfg : Config.

Lemma padStart4_table :
  forallb (fun n => fourDigitCode (padStart4 (N.of_nat n))) (seq 0 (N.to_nat 10000)) = true.
Proof. vm_compute. reflexivity. Qed.

(** A draw below 10000 is written as four decimal digits. *)
Lemma padStart4_fourDigitCode (n : N) : (n < 10000)%N -> fourDigitCode (padStart4 n) = true.
Proof.
  intros H. pose proof padStart4_table as T. rewrite List.forallb_forall in T.
  rewrite <- (N2Nat.id n). apply T. apply List.in_seq. lia.
Qed.

Lemma codeTaken_find (now : Z) (ss : list Session) (code : string) :
  find (fun s => bool_decide (pairCode s = code) && isLive now s) ss = None <->
  codeTaken now ss code = false.
Proof. apply find_none_existsb. Qed.

Lemma generateFrom_spec (ss : list Session) (now : Z) (draws : nat -> N) (fuel : nat) :
  forall i : nat,
    match generateFrom ss now draws i fuel with
    | Some code =>
        exists j, (j < fuel)%nat /\ code = padStart4 (draws (i + j)%nat) /\
                  codeTaken now ss code = false /\
                  forall j', (j' < j)%nat ->
                             codeTaken now ss (padStart4 (draws (i + j')%nat)) = true
    | None =>
        forall j, (j < fuel)%nat -> codeTaken now ss (padStart4 (draws (i + j)%nat)) = true
    end.
Proof.
  induction fuel as [|fuel IH]; intros i; cbn [generateFrom].
  - intros j Hj. lia.
  - destruct (find _ ss) as [s|] eqn:Hf.
    + assert (Ht : codeTaken now ss (padStart4 (draws i)) = true).
      { destruct (codeTaken now ss (padStart4 (draws i))) eqn:E; [reflexivity|].
        apply codeTaken_find in E. congruence. }
      specialize (IH (S i)). destruct (generateFrom ss now draws (S i) fuel) as [code|].
      * destruct IH as (j & Hj & -> & Hfree & Hbefore).
        exists (S j). repeat split.
        -- lia.
        -- f_equal. f_equal. lia.
        -- exact Hfree.
        -- intros [|j'] Hj'; [now rewrite Nat.add_0_r|].
           replace (i + S j')%nat with (S i + j')%nat by lia. apply Hbefore. lia.
      * intros [|j] Hj; [now rewrite Nat.add_0_r|].
        replace (i + S j)%nat with (S i + j)%nat by lia. apply IH. lia.
    + apply codeTaken_find in Hf. exists 0%nat. rewrite Nat.add_0_r.
      repeat split; [lia | exact Hf | intros j' Hj'; lia].
Qed.

(** X13.  [generateUniquePairCode] returns the first of its 100 draws that
    no session live at the time has as its code, and throws exactly when
    every one of the 100 draws is the code of a live session. *)
Theorem generateUniquePairCode_first_free (d : Db) (now : Z) (draws : nat -> N) :
  match generateUniquePairCode d now draws with
  | Some code =>
      exists i, (i < 100)%nat /\ code = padStart4 (draws i) /\
                codeTaken now (sessions d) code = false /\
                forall j, (j < i)%nat ->
                          codeTaken now (sessions d) (padStart4 (draws j)) = true
  | None =>
      forall i, (i < 100)%nat -> codeTaken now (sessions d) (padStart4 (draws i)) = true
  end.
Proof. exact (generateFrom_spec (sessions d) now draws 100 0). Qed.

Lemma NoDup_map_filter_weaken {A B} (f : A -> B) (p q : A -> bool) (l : list A) :
  (forall x, q x = true -> p x = true) ->
  NoDup (map f (List.filter p l)) -> NoDup (map f (List.filter q l)).
Proof.
  intros Hqp. induction l as [|x l IH]; [trivial|].
  cbn [List.filter]. destruct (q x) eqn:Hq.
  - rewrite (Hqp x Hq). cbn [map]. rewrite !List.NoDup_cons_iff. intros [Hx H].
    split; [|now apply IH].
    intros Hin. apply Hx.
    apply List.in_map_iff in Hin as (y & Hy & Hin). apply List.in_map_iff.
    exists y. split; [exact Hy|]. apply List.filter_In in Hin as [Hin Hqy].
    apply List.filter_In. auto.
  - destruct (p x); [|exact IH]. cbn [map]. rewrite List.NoDup_cons_iff.
    intros [_ H]. now apply IH.
Qed.

Lemma codeTaken_false (now : Z) (ss : list Session) (code : string) :
  codeTaken now ss code = false ->
  ~ In code (map pairCode (List.filter (isLive now) ss)).
Proof.
  intros H Hin. apply List.in_map_iff in Hin as (s & Hs & Hin).
  apply List.filter_In in Hin as [Hin Hl].
  unfold codeTaken in H. apply not_true_iff_false in H. apply H.
  apply List.existsb_exists. exists s. split; [exact Hin|].
  now rewrite Hl, bool_decide_eq_true_2.
Qed.

(** What [createSession] does when the browser has no live session. *)
Lemma createSession_fresh (d d' : Db) (now : Z) (draws : nat -> N) (newId token : string)
      (r : SessionSummary) :
  findActive d now token = None ->
  createSession cfg d now draws newId token = Some (r, d') ->
  exists code,
    generateUniquePairCode d now draws = Some code /\
    r = mkSummary newId code (now + expiryMinutes cfg * 60 * 1000) /\
    d' = mkDb (sessions d ++
               [mkSession newId token code CREATED (now + expiryMinutes cfg * 60 * 1000)
                          None None None None])
              (events d) (rateLimits d).
Proof.
  unfold createSession. intros -> H.
  destruct (generateUniquePairCode d now draws) as [code|]; [|discriminate].
  injection H as <- <-. now exists code.
Qed.

(** X14.  [createSession] keeps the codes of the live sessions different
    from one another: when they are at the time of the call, they are after
    it, at that time and at every later time. *)
Theorem createSession_keeps_codes_unique (d d' : Db) (now t : Z) (draws : nat -> N)
        (newId token : string) (r : SessionSummary) :
  liveCodesUnique now d ->
  createSession cfg d now draws newId token = Some (r, d') ->
  now <= t ->
  liveCodesUnique t d'.
Proof.
  intros Hu Hc Hle. unfold liveCodesUnique in *.
  apply (NoDup_map_filter_weaken pairCode (isLive now) (isLive t));
    [intros x; now apply isLive_earlier|].
  destruct (findActive d now token) as [e|] eqn:He.
  - unfold createSession in Hc. rewrite He in Hc. now injection Hc as _ <-.
  - destruct (createSession_fresh d d' now draws newId token r He Hc)
      as (code & Hg & _ & ->).
    cbn [sessions]. rewrite List.filter_app, List.map_app.
    pose proof (generateFrom_spec (sessions d) now draws 100 0) as Hspec.
    unfold generateUniquePairCode in Hg. rewrite Hg in Hspec.
    destruct Hspec as (_ & _ & _ & Hfree & _).
    cbn [List.filter]. destruct (isLive now _); cbn [map].
    + apply List.NoDup_app; [exact Hu | repeat constructor; intros [] |].
      intros c Hc1 [<-|[]].
      now apply (codeTaken_false now (sessions d) _ Hfree).
    + now rewrite List.app_nil_r.
Qed.

End PairingCodes.

Lemma createSession_keeps_codes_unique_witness :
  let s := Session.mkSession "s1" "tab-1" "4827" Session.CREATED 600000 None None None None in
  liveCodesUnique 2000
    (Session.mkDb
       [s; Session.mkSession "s2" "tab-2" "0042" Session.CREATED (1000 + 10 * 60 * 1000)%Z
                             None None None None]
       [] ∅).
Proof.
  intros s.
  apply (createSession_keeps_codes_unique (Session.mkConfig 10 30 3 60)
           (Session.mkDb [s] [] ∅) _ 1000 2000
           (fun i => match i with O => 4827%N | _ => 42%N end) "s2" "tab-2"
           (Session.mkSummary "s2" "0042" (1000 + 10 * 60 * 1000)%Z)).
  - unfold liveCodesUnique. cbn. repeat constructor. intros [].
  - reflexivity.
  - lia.
Defined.

(** ** The code step of a call *)

Section CodeStep.
Import Session.
Local Open Scope Z_scope.

Variable cfg : Config.

Lemma checkRateLimit_locked (d : Db) (now until : Z) (caller : string) (r : RateLimit) :
  rateLimits d !! caller = Some r -> lockedUntil r = Some until -> now < until ->
  checkRateLimit cfg d now caller = (mkCheck false None (Some until), d).
Proof.
  intros Hr Hu Hlt. unfold checkRateLimit. rewrite Hr, Hu.
  now destruct (Z.ltb_spec now until); [|lia].
Qed.

Lemma ceilSeconds_round (ms : Z) :
  1000 * (RetellCalls.ceilSeconds ms - 1) < ms <= 1000 * RetellCalls.ceilSeconds ms.
Proof.
  unfold RetellCalls.ceilSeconds.
  pose proof (Z.div_mod (- ms) 1000 ltac:(lia)).
  pose proof (Z.mod_pos_bound (- ms) 1000 ltac:(lia)). lia.
Qed.

(** X15.  While a caller is locked out at the time of the check of the rate
    limiter, both call flows refuse every code, the right one included, and
    change nothing in the store or in the state of the call.  The wait they
    announce is the rest of the lock-out at the later reading of the clock,
    in seconds, rounded up: at least one second when that reading is still
    before the end of the lock-out, and zero or less when it is not. *)
Theorem locked_caller_is_refused (d : Db) (now later until : Z) (caller call : string)
        (r : RateLimit) (said : jsstring)
        (st : gmap string RetellCalls.CallState) (st' : gmap string TwilioCalls.CallData) :
  rateLimits d !! caller = Some r -> lockedUntil r = Some until -> now < until ->
  exists wait,
    RetellCalls.handleVerifyCode cfg st d now later call caller said =
      Some (RetellCalls.TooManyAttempts wait, (d, st)) /\
    TwilioCalls.code cfg st' d now later call caller said =
      (TwilioCalls.TooManyAttempts wait, (d, st')) /\
    1000 * (wait - 1) < until - later <= 1000 * wait /\
    (later < until -> 1 <= wait) /\
    (until <= later -> wait <= 0).
Proof.
  intros Hr Hu Hlt. exists (RetellCalls.ceilSeconds (until - later)).
  unfold RetellCalls.handleVerifyCode, TwilioCalls.code.
  rewrite (checkRateLimit_locked d now until caller r Hr Hu Hlt).
  cbn [allowed negb check_lockedUntil].
  pose proof (ceilSeconds_round (until - later)) as Hround.
  split; [reflexivity|]. split; [reflexivity|]. split; [exact Hround|].
  split; intros; lia.
Qed.

Lemma checkRateLimit_sessions (d : Db) (now : Z) (caller : string) :
  sessions (snd (checkRateLimit cfg d now caller)) = sessions d /\
  events (snd (checkRateLimit cfg d now caller)) = events d.
Proof.
  unfold checkRateLimit. destruct (rateLimits d !! caller) as [r|]; [|easy].
  destruct (lockedUntil r) as [u|]; [|easy]. now destruct (now <? u).
Qed.

Lemma recordFailedAttempt_sessions (d : Db) (now : Z) (caller : string) :
  sessions (snd (recordFailedAttempt cfg d now caller)) = sessions d.
Proof. unfold recordFailedAttempt. now destruct (maxAttempts cfg <=? _). Qed.

Lemma findSessionByCode_sessions (d1 d2 : Db) (now : Z) (code : string) :
  sessions d1 = sessions d2 -> findSessionByCode d1 now code = findSessionByCode d2 now code.
Proof. unfold findSessionByCode. now intros ->. Qed.

(** [pairSession] on a session of the store: what it writes. *)
Lemma pairSession_effect (d : Db) (now : Z) (s : Session) (number name sid : string) :
  In s (sessions d) ->
  exists s',
    pairSession cfg d now (id s) number name sid =
    Some (s',
          mkDb (map (fun x => if bool_decide (id x = id s)
                              then pairedRow cfg now number name sid x else x)
                    (sessions d))
               (events d ++ [mkEvent (id s) "paired"
                               [("callerName", name);
                                ("callerNumber", maskPhoneNumber number)]])
               (rateLimits d)).
Proof.
  intros Hin. unfold pairSession, updateSession.
  destruct (find_exists (fun x => bool_decide (id x = id s)) (sessions d) s Hin)
    as [y Hy]; [now apply bool_decide_eq_true_2|].
  rewrite Hy. eexists. reflexivity.
Qed.

End CodeStep.

Lemma locked_caller_is_refused_witness :
  let cfg := Session.mkConfig 10 30 3 60 in
  let s := Session.mkSession "s1" "tab-1" "4827" Session.CREATED 600000 None None None None in
  let d := Session.mkDb [s] [] {[ "+15550001111"%string := Session.mkRateLimit 3 1000 (Some 61000%Z) ]} in
  exists wait,
    RetellCalls.handleVerifyCode cfg ∅ d 60999 61000 "call-1" "+15550001111" (str "4827") =
      Some (RetellCalls.TooManyAttempts wait, (d, ∅)) /\
    TwilioCalls.code cfg ∅ d 60999 61000 "call-1" "+15550001111" (str "4827") =
      (TwilioCalls.TooManyAttempts wait, (d, ∅)) /\
    (1000 * (wait - 1) < 61000 - 61000 <= 1000 * wait)%Z /\
    ((61000 < 61000)%Z -> (1 <= wait)%Z) /\
    ((61000 <= 61000)%Z -> (wait <= 0)%Z).
Proof.
  intros cfg s d.
  apply (locked_caller_is_refused cfg d 60999 61000 61000 "+15550001111" "call-1"
           (Session.mkRateLimit 3 1000 (Some 61000%Z)) (str "4827") ∅ ∅).
  - apply lookup_singleton_eq.
  - reflexivity.
  - lia.
Defined.

Section CodeStepPairs.
Import Session.
Local Open Scope Z_scope.

Variable cfg : Config.

(** What the store is after a session has been paired and the caller
    cleared. *)
Lemma paired_store (d1 : Db) (now : Z) (s : Session) (caller name call : string) :
  In s (sessions d1) ->
  exists s' d2,
    pairSession cfg d1 now (id s) caller name call = Some (s', d2) /\
    rateLimits (clearRateLimit d2 caller) !! caller = None /\
    (exists x, In x (sessions (clearRateLimit d2 caller)) /\ id x = id s) /\
    map id (sessions (clearRateLimit d2 caller)) = map id (sessions d1) /\
    (forall x, In x (sessions (clearRateLimit d2 caller)) -> id x = id s ->
               status x = PAIRED /\ callerNumber x = Some caller /\
               callSid x = Some call /\
               expiresAt x = now + pairedExpiryMinutes cfg * 60 * 1000) /\
    (forall t code y, findSessionByCode (clearRateLimit d2 caller) t code = Some y ->
                      id y <> id s) /\
    map type (events (clearRateLimit d2 caller)) = map type (events d1) ++ ["paired"%string].
Proof.
  intros Hin. destruct (pairSession_effect cfg d1 now s caller name call Hin) as [s' E].
  eexists _, _. split; [exact E|]. cbn [clearRateLimit rateLimits sessions events].
  split; [apply lookup_delete_eq|]. split; [|split; [|split; [|split]]].
  - exists (pairedRow cfg now caller name call s). split; [|reflexivity].
    apply List.in_map_iff. exists s. split; [|exact Hin].
    now rewrite bool_decide_eq_true_2.
  - rewrite List.map_map. apply List.map_ext. intros z.
    destruct (bool_decide_reflect (id z = id s)); reflexivity.
  - intros x Hx Hid. apply List.in_map_iff in Hx as (z & <- & _).
    destruct (bool_decide_reflect (id z = id s)) as [Hz|Hz].
    + cbn. auto.
    + contradiction.
  - intros t code y Hy Hid. unfold findSessionByCode in Hy. cbn [sessions] in Hy.
    apply List.find_some in Hy as [Hy Hp].
    apply List.in_map_iff in Hy as (z & <- & _).
    destruct (bool_decide_reflect (id z = id s)) as [Hz|Hz]; [|contradiction].
    cbn in Hp. rewrite (bool_decide_eq_false_2 (PAIRED = CREATED)) in Hp by discriminate.
    now rewrite andb_false_r in Hp.
  - now rewrite List.map_app.
Qed.

(** X16.  A caller whom the rate limiter allows and who gives four digits
    under which a session can be found is connected to that session by
    [handleVerifyCode]: the session is in the store, paired with the
    caller's number and call, and expires after the paired-session time; no
    session is added or removed; no search by code finds the session any
    more; one event ["paired"] is logged, the caller's failures are
    forgotten and the call remembers the session. *)
Theorem handleVerifyCode_connects (d : Db) (now later : Z) (caller call : string)
        (said : jsstring) (st : gmap string RetellCalls.CallState) (s : Session) :
  allowed (fst (checkRateLimit cfg d now caller)) = true ->
  length (JS.stripNonDigits said) = 4%nat ->
  findSessionByCode d now (string_of_list_ascii (JS.stripNonDigits said)) = Some s ->
  exists d' st',
    RetellCalls.handleVerifyCode cfg st d now later call caller said =
      Some (RetellCalls.Connected (id s), (d', st')) /\
    rateLimits d' !! caller = None /\
    (exists x, In x (sessions d') /\ id x = id s) /\
    map id (sessions d') = map id (sessions d) /\
    (forall x, In x (sessions d') -> id x = id s ->
               status x = PAIRED /\ callerNumber x = Some caller /\
               callSid x = Some call /\
               expiresAt x = now + pairedExpiryMinutes cfg * 60 * 1000) /\
    (forall t code y, findSessionByCode d' t code = Some y -> id y <> id s) /\
    map type (events d') = map type (events d) ++ ["paired"%string] /\
    RetellCalls.sessionId <$> st' !! call = Some (Some (id s)).
Proof.
  intros Hallowed Hlen Hfind. unfold RetellCalls.handleVerifyCode.
  pose proof (checkRateLimit_sessions cfg d now caller) as [Hss Hev].
  destruct (checkRateLimit cfg d now caller) as [chk d1]. cbn [fst snd] in *.
  rewrite Hallowed, Hlen. cbn [negb Nat.eqb].
  rewrite (findSessionByCode_sessions d1 d now _ Hss), Hfind.
  assert (Hin : In s (sessions d1)).
  { rewrite Hss. now apply (List.find_some _ _ Hfind). }
  destruct (paired_store d1 now s caller
              (RetellCalls.nameOrCaller
                 (RetellCalls.name (default (RetellCalls.mkCallState None None None 0)
                                            (st !! call)))) call Hin)
    as (s' & d2 & -> & Hrl & Hrow0 & Hids & Hrow & Hgone & Hevents).
  eexists _, _. split; [reflexivity|].
  split; [exact Hrl|]. split; [exact Hrow0|].
  split; [now rewrite Hids, Hss|]. split; [exact Hrow|]. split; [exact Hgone|].
  split; [now rewrite Hevents, Hev|].
  now rewrite lookup_insert_eq.
Qed.

End CodeStepPairs.

Lemma handleVerifyCode_connects_witness :
  let cfg := Session.mkConfig 10 30 3 60 in
  let s := Session.mkSession "s1" "tab-1" "4827" Session.CREATED 600000 None None None None in
  let d := Session.mkDb [s] [] ∅ in
  exists d' st',
    RetellCalls.handleVerifyCode cfg ∅ d 1000 1001 "call-1" "+15550001111" (str "48-27") =
      Some (RetellCalls.Connected "s1", (d', st')) /\
    Session.rateLimits d' !! "+15550001111"%string = None /\
    (exists x, In x (Session.sessions d') /\ Session.id x = "s1"%string) /\
    map Session.id (Session.sessions d') = ["s1"%string] /\
    (forall x, In x (Session.sessions d') -> Session.id x = "s1"%string ->
               Session.status x = Session.PAIRED /\
               Session.callerNumber x = Some "+15550001111"%string /\
               Session.callSid x = Some "call-1"%string /\
               Session.expiresAt x = (1000 + 30 * 60 * 1000)%Z) /\
    (forall t code y, Session.findSessionByCode d' t code = Some y ->
                      Session.id y <> "s1"%string) /\
    map Session.type (Session.events d') = map Session.type [] ++ ["paired"%string] /\
    RetellCalls.sessionId <$> st' !! "call-1"%string = Some (Some "s1"%string).
Proof.
  intros cfg s d.
  apply (handleVerifyCode_connects cfg d 1000 1001 "+15550001111" "call-1" (str "48-27") ∅ s).
  - reflexivity.
  - reflexivity.
  - reflexivity.
Defined.

Section CodeStepFails.
Import Session.
Local Open Scope Z_scope.

Variable cfg : Config.
Variable caller : string.
Variable call : string.

Lemma misses_sessions (d1 d2 : Db) (c : Z * Z * jsstring) :
  sessions d1 = sessions d2 -> misses d1 c -> misses d2 c.
Proof.
  unfold misses. intros Hs [H|H]; [now left | right].
  now rewrite <- (findSessionByCode_sessions d1 d2 _ _ Hs).
Qed.

(** A code that misses, from a caller with attempts left, is refused and
    counted as one failure. *)
Lemma handleVerifyCode_miss (k t later : Z) (said : jsstring) (d : Db)
      (st : gmap string RetellCalls.CallState) :
  unlockedWith caller k d -> 0 <= k < maxAttempts cfg -> misses d (t, later, said) ->
  exists r st',
    RetellCalls.handleVerifyCode cfg st d t later call caller said =
      Some (r, (snd (recordFailedAttempt cfg d t caller), st')) /\
    isRefusal r = true.
Proof.
  intros Hk Hlt Hmiss. unfold RetellCalls.handleVerifyCode.
  rewrite (checkRateLimit_unlocked cfg caller k t d Hk Hlt). cbn [allowed negb].
  destruct Hmiss as [Hlen|Hnone]; cbn [fst snd] in *.
  - apply Nat.eqb_neq in Hlen. rewrite Hlen. cbn [negb RetellCalls.countAttempt].
    destruct (3 <=? _); eexists _, _; split; reflexivity.
  - destruct (length (JS.stripNonDigits said) =? 4)%nat; cbn [negb RetellCalls.countAttempt].
    + rewrite Hnone. destruct (3 <=? _); eexists _, _; split; reflexivity.
    + destruct (3 <=? _); eexists _, _; split; reflexivity.
Qed.

Lemma verifyCodes_lock (calls : list (Z * Z * jsstring)) (tlast tlater : Z)
      (last : jsstring) :
  forall (k : Z) (d : Db) (st : gmap string RetellCalls.CallState),
    unlockedWith caller k d -> 0 <= k ->
    k + Z.of_nat (length calls) + 1 = maxAttempts cfg ->
    Forall (misses d) (calls ++ [(tlast, tlater, last)]) ->
    exists replies d' st',
      verifyCodes cfg call caller (calls ++ [(tlast, tlater, last)]) st d =
        Some (replies, (d', st')) /\
      forallb isRefusal replies = true /\
      sessions d' = sessions d /\
      rateLimits d' !! caller =
        Some (mkRateLimit (maxAttempts cfg) tlast
                          (Some (tlast + lockoutSeconds cfg * 1000))).
Proof.
  induction calls as [|[[t later] said] calls IH]; intros k d st Hk H0 Hlen Hmiss.
  - cbn [app length] in *. apply List.Forall_inv in Hmiss.
    destruct (handleVerifyCode_miss k tlast tlater last d st Hk ltac:(lia) Hmiss)
      as (r & st' & E & Hr).
    cbn [verifyCodes]. rewrite E.
    exists [r], (snd (recordFailedAttempt cfg d tlast caller)), st'.
    repeat split.
    + cbn. now rewrite Hr.
    + apply recordFailedAttempt_sessions.
    + rewrite (recordFailedAttempt_locks cfg caller k tlast d Hk ltac:(lia)).
      cbn [snd]. apply lookup_setRateLimit.
  - cbn [app length] in *. rewrite Nat2Z.inj_succ in Hlen.
    pose proof (List.Forall_inv Hmiss) as Hfirst.
    pose proof (List.Forall_inv_tail Hmiss) as Hrest.
    destruct (handleVerifyCode_miss k t later said d st Hk ltac:(lia) Hfirst)
      as (r & st1 & E & Hr).
    set (d1 := snd (recordFailedAttempt cfg d t caller)) in *.
    assert (Hs1 : sessions d1 = sessions d) by apply recordFailedAttempt_sessions.
    destruct (IH (k + 1) d1 st1) as (rs & d' & st' & E' & Hrs & Hs' & Hrl).
    + apply recordFailedAttempt_counts; [exact Hk | lia].
    + lia.
    + lia.
    + eapply List.Forall_impl; [|exact Hrest].
      intros c. apply misses_sessions. now symmetry.
    + cbn [verifyCodes]. rewrite E, E'. exists (r :: rs), d', st'.
      repeat split.
      * cbn. now rewrite Hr, Hrs.
      * congruence.
      * exact Hrl.
Qed.

(** X17.  From no row for the caller, as many codes that miss as the
    maximum of attempts, given one after the other, are each refused and
    leave the sessions as they are.  From then on [handleVerifyCode] refuses
    whatever the caller says, in this call or in another, whenever the
    check of the rate limiter comes before the end of the lock-out, and
    changes nothing; the wait it announces is the rest of the lock-out at
    its later reading of the clock, in seconds, rounded up. *)
Theorem handleVerifyCode_locks_out (d : Db) (calls : list (Z * Z * jsstring))
        (tlast tlater : Z) (last : jsstring) (st : gmap string RetellCalls.CallState) :
  rateLimits d !! caller = None ->
  Z.of_nat (length calls) + 1 = maxAttempts cfg ->
  Forall (misses d) (calls ++ [(tlast, tlater, last)]) ->
  exists replies d' st',
    verifyCodes cfg call caller (calls ++ [(tlast, tlater, last)]) st d =
      Some (replies, (d', st')) /\
    forallb isRefusal replies = true /\
    sessions d' = sessions d /\
    forall (t later : Z) (otherCall : string) (said : jsstring)
           (st'' : gmap string RetellCalls.CallState),
      t < tlast + lockoutSeconds cfg * 1000 ->
      RetellCalls.handleVerifyCode cfg st'' d' t later otherCall caller said =
        Some (RetellCalls.TooManyAttempts
                (RetellCalls.ceilSeconds (tlast + lockoutSeconds cfg * 1000 - later)),
              (d', st'')).
Proof.
  intros Hnone Hlen Hmiss.
  assert (H0 : unlockedWith caller 0 d) by (unfold unlockedWith; now rewrite Hnone).
  destruct (verifyCodes_lock calls tlast tlater last 0 d st H0 ltac:(lia) ltac:(lia) Hmiss)
    as (rs & d' & st' & E & Hrs & Hs & Hrl).
  exists rs, d', st'. repeat split; try assumption.
  intros t later otherCall said st'' Ht.
  unfold RetellCalls.handleVerifyCode.
  now rewrite (checkRateLimit_locked cfg d' t _ caller _ Hrl eq_refl Ht).
Qed.

End CodeStepFails.

Lemma handleVerifyCode_locks_out_witness :
  let cfg := Session.mkConfig 10 30 3 60 in
  let s := Session.mkSession "s1" "tab-1" "4827" Session.CREATED 600000 None None None None in
  let d := Session.mkDb [s] [] ∅ in
  exists replies d' st',
    verifyCodes cfg "call-1" "+15550001111"
      ([(1000%Z, 1001%Z, str "12"); (2000%Z, 2001%Z, str "1234")]
       ++ [(3000%Z, 3001%Z, str "9999")]) ∅ d =
      Some (replies, (d', st')) /\
    forallb isRefusal replies = true /\
    Session.sessions d' = Session.sessions d /\
    forall (t later : Z) (otherCall : string) (said : jsstring)
           (st'' : gmap string RetellCalls.CallState),
      (t < 3000 + 60 * 1000)%Z ->
      RetellCalls.handleVerifyCode cfg st'' d' t later otherCall "+15550001111" said =
        Some (RetellCalls.TooManyAttempts
                (RetellCalls.ceilSeconds (3000 + 60 * 1000 - later)),
              (d', st'')).
Proof.
  intros cfg s d.
  apply (handleVerifyCode_locks_out cfg "+15550001111" "call-1" d
           [(1000%Z, 1001%Z, str "12"); (2000%Z, 2001%Z, str "1234")]
           3000%Z 3001%Z (str "9999") ∅).
  - reflexivity.
  - reflexivity.
  - apply List.Forall_cons; [left; vm_compute; discriminate|].
    apply List.Forall_cons; [right; vm_compute; reflexivity|].
    apply List.Forall_cons; [right; vm_compute; reflexivity|].
    apply List.Forall_nil.
Defined.

(** ** From the web page to the call *)

Section PageToCall.
Import Session.
Local Open Scope Z_scope.

Variable cfg : Config.

(** The session that [createSession] has made for a browser without a live
    session is the one found under its code until it expires, and the code
    is four digits. *)
Lemma fresh_code_found (d d' : Db) (now t : Z) (draws : nat -> N)
      (newId token : string) (r : SessionSummary) :
  findActive d now token = None ->
  (forall i, (draws i < 10000)%N) ->
  createSession cfg d now draws newId token = Some (r, d') ->
  now <= t < sum_expiresAt r ->
  sum_id r = newId /\
  fourDigitCode (sum_pairCode r) = true /\
  exists s, findSessionByCode d' t (sum_pairCode r) = Some s /\ id s = newId /\
            browserToken s = token.
Proof.
  intros Hnone Hdraws Hc Ht.
  destruct (createSession_fresh cfg d d' now draws newId token r Hnone Hc)
    as (code & Hg & -> & ->).
  cbn [sum_id sum_pairCode sum_expiresAt] in *.
  pose proof (generateFrom_spec (sessions d) now draws 100 0) as Hspec.
  unfold generateUniquePairCode in Hg. rewrite Hg in Hspec.
  destruct Hspec as (i & _ & Hcode & Hfree & _).
  split; [reflexivity|]. split; [rewrite Hcode; apply padStart4_fourDigitCode, Hdraws|].
  exists (mkSession newId token code CREATED (now + expiryMinutes cfg * 60 * 1000)
                    None None None None).
  split; [|split; reflexivity].
  unfold findSessionByCode. cbn [sessions]. rewrite find_app_none.
  - cbn [find pairCode status expiresAt].
    rewrite !bool_decide_eq_true_2 by reflexivity. cbn [andb].
    destruct (Z.ltb_spec t (now + expiryMinutes cfg * 60 * 1000)); [reflexivity | lia].
  - apply find_none. intros y Hy.
    destruct (bool_decide_reflect (pairCode y = code)) as [Hpc|]; [|reflexivity].
    destruct (bool_decide_reflect (status y = CREATED)) as [Hst|]; [|reflexivity].
    destruct (Z.ltb_spec t (expiresAt y)) as [Hexp|]; [|reflexivity].
    exfalso. unfold codeTaken in Hfree. apply not_true_iff_false in Hfree. apply Hfree.
    apply List.existsb_exists. exists y. split; [exact Hy|].
    rewrite bool_decide_eq_true_2 by exact Hpc. unfold isLive.
    rewrite bool_decide_eq_true_2 by auto. apply Z.ltb_lt. lia.
Qed.

Lemma fourDigitCode_digits (code : string) :
  fourDigitCode code = true ->
  length (list_ascii_of_string code) = 4%nat /\
  Forall (fun c => JS.isDigit c = true) (list_ascii_of_string code).
Proof.
  unfold fourDigitCode. intros H. apply andb_prop in H as [Hl Hd].
  apply Nat.eqb_eq in Hl. split; [exact Hl|].
  apply List.Forall_forall. now apply List.forallb_forall.
Qed.

(** X18.  The code of a session that [createSession] has just made, given
    back by a caller whom the rate limiter allows, before the session
    expires, in a transcript without letters whose digits are the code,
    connects the caller to that session in both call flows: the Twilio
    route parses the code out of the transcript, the Retell handler strips
    the argument to its digits. *)
Theorem created_code_connects (d d' : Db) (now t later : Z) (draws : nat -> N)
        (newId token caller call : string) (r : SessionSummary) (said : jsstring)
        (st : gmap string TwilioCalls.CallData) (st2 : gmap string RetellCalls.CallState) :
  findActive d now token = None ->
  (forall i, (draws i < 10000)%N) ->
  createSession cfg d now draws newId token = Some (r, d') ->
  now <= t < sum_expiresAt r ->
  allowed (fst (checkRateLimit cfg d' t caller)) = true ->
  madeOf notLetter said ->
  List.filter JS.isDigit said = list_ascii_of_string (sum_pairCode r) ->
  SpeechParser.code (SpeechParser.parseSpokenCode said) =
    Some (list_ascii_of_string (sum_pairCode r)) /\
  (exists final, TwilioCalls.code cfg st d' t later call caller said =
                 (TwilioCalls.Connected (sum_id r), final)) /\
  (exists final, RetellCalls.handleVerifyCode cfg st2 d' t later call caller said =
                 Some (RetellCalls.Connected (sum_id r), final)).
Proof.
  intros Hnone Hdraws Hc Ht Hallowed Hfree Hdigits.
  destruct (fresh_code_found d d' now t draws newId token r Hnone Hdraws Hc Ht)
    as (Hid & Hfour & s & Hfind & Hs & _).
  destruct (fourDigitCode_digits _ Hfour) as [Hlen _].
  assert (Hparse : SpeechParser.parseSpokenCode said =
                   SpeechParser.mkParseResult true
                     (Some (list_ascii_of_string (sum_pairCode r))) (JS.trim said)
                     (Some (list_ascii_of_string (sum_pairCode r)))).
  { rewrite parseSpokenCode_stages.
    destruct said as [|a said]; [cbn in Hdigits; rewrite <- Hdigits in Hlen; discriminate|].
    now rewrite (directDigits_letter_free _ Hfree), Hdigits, Hlen. }
  pose proof (checkRateLimit_sessions cfg d' t caller) as [Hss _].
  assert (Hin : In s (sessions (snd (checkRateLimit cfg d' t caller)))).
  { rewrite Hss. now apply (List.find_some _ _ Hfind). }
  split; [now rewrite Hparse|]. split.
  - unfold TwilioCalls.code.
    destruct (checkRateLimit cfg d' t caller) as [chk d1]. cbn [fst snd] in *.
    rewrite Hallowed, Hparse. cbn [negb SpeechParser.success SpeechParser.code].
    destruct (list_ascii_of_string (sum_pairCode r)) as [|c cs] eqn:Hl; [discriminate|].
    rewrite <- Hl, string_of_list_ascii_of_string.
    rewrite (findSessionByCode_sessions d1 d' t _ Hss), Hfind.
    destruct (pairSession_effect cfg d1 t s caller
                (TwilioCalls.nameOrCaller
                   (TwilioCalls.name (default (TwilioCalls.mkCallData None 0 None)
                                              (st !! call)))) call Hin) as [s' ->].
    rewrite Hs, Hid. eexists. reflexivity.
  - unfold RetellCalls.handleVerifyCode.
    destruct (checkRateLimit cfg d' t caller) as [chk d1]. cbn [fst snd] in *.
    rewrite Hallowed, stripNonDigits_filter, Hdigits, Hlen. cbn [negb Nat.eqb].
    rewrite string_of_list_ascii_of_string.
    rewrite (findSessionByCode_sessions d1 d' t _ Hss), Hfind.
    destruct (pairSession_effect cfg d1 t s caller
                (RetellCalls.nameOrCaller
                   (RetellCalls.name (default (RetellCalls.mkCallState None None None 0)
                                              (st2 !! call)))) call Hin) as [s' ->].
    rewrite Hs, Hid. eexists. reflexivity.
Qed.

End PageToCall.

Lemma created_code_connects_witness :
  let cfg := Session.mkConfig 10 30 3 60 in
  let d := Session.mkDb [] [] ∅ in
  let r := Session.mkSummary "s1" "0427" (1000 + 10 * 60 * 1000)%Z in
  SpeechParser.code (SpeechParser.parseSpokenCode (str "0 4 2 7")) =
    Some (list_ascii_of_string (Session.sum_pairCode r)) /\
  (exists final,
     TwilioCalls.code cfg ∅
       (Session.mkDb [Session.mkSession "s1" "tab-1" "0427" Session.CREATED
                        (1000 + 10 * 60 * 1000)%Z None None None None] [] ∅)
       5000 5001 "call-1" "+15550001111" (str "0 4 2 7") =
     (TwilioCalls.Connected (Session.sum_id r), final)) /\
  (exists final,
     RetellCalls.handleVerifyCode cfg ∅
       (Session.mkDb [Session.mkSession "s1" "tab-1" "0427" Session.CREATED
                        (1000 + 10 * 60 * 1000)%Z None None None None] [] ∅)
       5000 5001 "call-1" "+15550001111" (str "0 4 2 7") =
     Some (RetellCalls.Connected (Session.sum_id r), final)).
Proof.
  intros cfg d r.
  apply (created_code_connects cfg d _ 1000 5000 5001 (fun _ => 427%N) "s1" "tab-1"
           "+15550001111" "call-1" r (str "0 4 2 7") ∅ ∅).
  - reflexivity.
  - intros i. reflexivity.
  - reflexivity.
  - cbn. lia.
  - reflexivity.
  - unfold madeOf. repeat constructor.
  - reflexivity.
Defined.

(** ** The day of the appointment *)

Section BusinessDay.
Local Open Scope Z_scope.

Lemma getDay_range (day : Z) : 0 <= Retell.getDay day <= 6.
Proof. unfold Retell.getDay. pose proof (Z.mod_pos_bound (day + 4) 7). lia. Qed.

Lemma getDay_next (day : Z) :
  Retell.getDay (day + 1) = if Retell.getDay day =? 6 then 0 else Retell.getDay day + 1.
Proof.
  unfold Retell.getDay. destruct (Z.eqb_spec ((day + 4) mod 7) 6);
    Z.to_euclidean_division_equations; lia.
Qed.

(** X19.  [getNextBusinessDay] ends after at most three tests of the loop:
    the day it returns is a Monday to Friday, after today and at most three
    days after it, and every day between today and that day is a Saturday
    or a Sunday. *)
Theorem getNextBusinessDay_weekday (fuel : nat) (today : Z) :
  (3 <= fuel)%nat ->
  exists day,
    Retell.getNextBusinessDay fuel today = Some day /\
    1 <= Retell.getDay day <= 5 /\
    today < day <= today + 3 /\
    forall x, today < x < day -> Retell.getDay x = 0 \/ Retell.getDay x = 6.
Proof.
  intros Hfuel. destruct fuel as [|[|[|fuel]]]; try lia.
  unfold Retell.getNextBusinessDay. cbn [Retell.skipWeekend].
  pose proof (getDay_range (today + 1)) as R1.
  pose proof (getDay_next (today + 1)) as N1.
  pose proof (getDay_next (today + 1 + 1)) as N2.
  destruct (Z.eqb_spec (Retell.getDay (today + 1)) 0) as [E0|E0]; cbn [orb].
  - (* tomorrow is a Sunday *)
    rewrite E0 in N1. cbn in N1. rewrite N1. cbn.
    exists (today + 1 + 1). repeat split; try lia.
    intros x Hx. left. now replace x with (today + 1) by lia.
  - destruct (Z.eqb_spec (Retell.getDay (today + 1)) 6) as [E6|E6].
    + (* tomorrow is a Saturday *)
      rewrite N1 in *. cbn in N2. cbn.
      rewrite N2. cbn.
      exists (today + 1 + 1 + 1). repeat split; try lia.
      intros x Hx. assert (x = today + 1 \/ x = today + 1 + 1) as [->| ->] by lia; auto.
    + exists (today + 1). repeat split; try lia.
Qed.

Lemma getNextBusinessDay_weekday_witness :
  exists day,
    Retell.getNextBusinessDay 3 0 = Some day /\
    (1 <= Retell.getDay day <= 5)%Z /\
    (0 < day <= 0 + 3)%Z /\
    forall x, (0 < x < day)%Z -> Retell.getDay x = 0%Z \/ Retell.getDay x = 6%Z.
Proof. apply (getNextBusinessDay_weekday 3 0). lia. Defined.

End BusinessDay.

(** ** The two call flows side by side *)

Section FlowsCompared.
Import JS SpeechParser.

(** X20.  An answer that the Twilio route takes as a yes is taken as a yes
    by the Retell handler too. *)
Theorem wantsSchedule_isYes (answer : jsstring) :
  Twilio.wantsSchedule answer = true -> Retell.isYes answer = true.
Proof.
  unfold Twilio.wantsSchedule, Retell.isYes, Retell.yesWords. cbn [existsb].
  intros H. repeat (apply orb_prop in H as [H|H]); rewrite H;
    repeat rewrite ?orb_true_r, ?orb_true_l; reflexivity.
Qed.

Lemma wantsSchedule_isYes_witness : Retell.isYes (str "Yeah, why not") = true.
Proof. apply (wantsSchedule_isYes (str "Yeah, why not")). reflexivity. Defined.

Ltac lower_keywords :=
  repeat match goal with
    | |- context [toLowerCase (str ?kw)] => change (toLowerCase (str kw)) with (str kw)
    end.

Ltac no_keyword transcript :=
  repeat (match goal with
          | |- context [includes (toLowerCase transcript) ?kw] =>
              destruct (includes (toLowerCase transcript) kw)
          end;
          cbn [orb fmap option_fmap option_map default fst];
          try (intros; discriminate); try (intros; reflexivity)).

(** X21.  A transcript in which the Twilio parsers find no vertical, or no
    pain point, has none of the keywords of the Retell flow either, which
    resolves it to ["other"]. *)
Theorem unresolved_category_is_other (transcript : jsstring) :
  (parseVerticalSelection transcript = None ->
   Retell.normalizeVertical transcript = "other"%string) /\
  (parsePainSelection transcript = None ->
   Retell.normalizePain transcript = "other"%string).
Proof.
  rewrite parseVerticalSelection_parseCategory, parsePainSelection_parseCategory,
    normalizeVertical_parseCategory, normalizePain_parseCategory.
  unfold parseCategory, verticals, pains, retellVerticals, retellPains,
    containsIgnoringCase.
  cbn [find existsb snd fst]. lower_keywords.
  split; no_keyword transcript.
Qed.

End FlowsCompared.

(** ** Misses within one call of the Twilio flow *)

Section TwilioMisses.
Import Session.
Local Open Scope Z_scope.

Variable cfg : Config.

(** X22.  In the route [/code], a miss by a caller whom the rate limiter
    allows is counted in the call and against the caller and leaves the
    sessions as they are; when the call had two misses already, the route
    gives up and hangs up, whatever the maximum of the rate limiter. *)
Theorem code_counts_misses (d : Db) (now later : Z) (callSid from : string)
        (speechResult : jsstring) (st : gmap string TwilioCalls.CallData) :
  allowed (fst (checkRateLimit cfg d now from)) = true ->
  missesSpoken d now speechResult ->
  let before := default (TwilioCalls.mkCallData None 0 None) (st !! callSid) in
  let '(reply, (d', st')) :=
    TwilioCalls.code cfg st d now later callSid from speechResult in
  TwilioCalls.attempts <$> st' !! callSid = Some (TwilioCalls.attempts before + 1) /\
  d' = snd (recordFailedAttempt cfg (snd (checkRateLimit cfg d now from)) now from) /\
  sessions d' = sessions d /\
  (2 <= TwilioCalls.attempts before -> TwilioCalls.hangsUp reply = true).
Proof.
  intros Hallowed Hmiss before. unfold TwilioCalls.code. fold before.
  pose proof (checkRateLimit_sessions cfg d now from) as [Hss _].
  destruct (checkRateLimit cfg d now from) as [chk d1]. cbn [fst snd] in *.
  rewrite Hallowed. cbn [negb]. unfold missesSpoken in Hmiss. cbv zeta in Hmiss.
  assert (Hs1 : sessions (snd (recordFailedAttempt cfg d1 now from)) = sessions d)
    by (rewrite recordFailedAttempt_sessions; exact Hss).
  assert (Hdone : forall (reply : TwilioCalls.Reply) (d2 : Db) (data : TwilioCalls.CallData),
             d2 = snd (recordFailedAttempt cfg d1 now from) ->
             TwilioCalls.attempts data = TwilioCalls.attempts before + 1 ->
             (2 <= TwilioCalls.attempts before -> TwilioCalls.hangsUp reply = true) ->
             TwilioCalls.attempts <$> <[callSid := data]> st !! callSid =
               Some (TwilioCalls.attempts before + 1) /\
             d2 = snd (recordFailedAttempt cfg d1 now from) /\
             sessions d2 = sessions d /\
             (2 <= TwilioCalls.attempts before -> TwilioCalls.hangsUp reply = true)).
  { intros reply d2 data -> Ha Hh. rewrite lookup_insert_eq. cbn. rewrite Ha.
    repeat split; [exact Hs1 | exact Hh]. }
  destruct (if SpeechParser.success _ then _ else None) as [[|c parsed]|].
  - cbn [TwilioCalls.countAttempt].
    destruct (recordFailedAttempt cfg d1 now from) as [lock d2]. cbn [snd] in *.
    cbn [TwilioCalls.attempts].
    destruct (Z.leb_spec 3 (TwilioCalls.attempts before + 1)).
    + rewrite orb_true_r. apply Hdone; [reflexivity | reflexivity | reflexivity].
    + destruct (locked lock); cbn [orb]; apply Hdone;
        try reflexivity; intros; lia.
  - rewrite (findSessionByCode_sessions d1 d now _ Hss), Hmiss.
    cbn [TwilioCalls.countAttempt TwilioCalls.attempts].
    destruct (Z.leb_spec 3 (TwilioCalls.attempts before + 1)); apply Hdone;
      try reflexivity; intros; lia.
  - cbn [TwilioCalls.countAttempt].
    destruct (recordFailedAttempt cfg d1 now from) as [lock d2]. cbn [snd] in *.
    cbn [TwilioCalls.attempts].
    destruct (Z.leb_spec 3 (TwilioCalls.attempts before + 1)).
    + rewrite orb_true_r. apply Hdone; [reflexivity | reflexivity | reflexivity].
    + destruct (locked lock); cbn [orb]; apply Hdone;
        try reflexivity; intros; lia.
Qed.

End TwilioMisses.

(** ** Keeping a session alive *)

Section Extending.
Import Session.
Local Open Scope Z_scope.

Variable cfg : Config.

(** X23.  [extendSession] returns a session of the resulting store that has
    the identifier; it moves the expiry of the session to the
    paired-session time from now and leaves its status, its code and its
    caller as they are; no sweep up to the new expiry expires it; no
    session is added or removed, and the other sessions are not touched. *)
Theorem extendSession_keeps_alive (d d' : Db) (now : Z) (sid : string) (s' : Session) :
  extendSession cfg d now sid = Some (s', d') ->
  let until := now + pairedExpiryMinutes cfg * 60 * 1000 in
  (In s' (sessions d') /\ id s' = sid) /\
  map id (sessions d') = map id (sessions d) /\
  (forall x, In x (sessions d') -> id x = sid ->
     expiresAt x = until /\ activeUntil x = Some until /\
     (exists y, In y (sessions d) /\ id y = sid /\ status x = status y /\
                pairCode x = pairCode y /\ callerNumber x = callerNumber y) /\
     forall t, t <= until -> In x (sessions (snd (cleanupExpiredSessions d' t)))) /\
  (forall x, id x <> sid -> In x (sessions d') <-> In x (sessions d)).
Proof.
  intros H upto. unfold extendSession, updateSession in H.
  destruct (find _ (sessions d)) as [y0|] eqn:Hfind; [|discriminate].
  apply List.find_some in Hfind as [Hin0 Hid0]. apply bool_decide_eq_true in Hid0.
  injection H as <- <-. cbn [withSessions sessions].
  split; [|split; [|split]].
  - split; [|exact Hid0]. apply List.in_map_iff. exists y0. split; [|exact Hin0].
    now rewrite bool_decide_eq_true_2.
  - rewrite List.map_map. apply List.map_ext. intros z.
    destruct (bool_decide_reflect (id z = sid)); reflexivity.
  - intros x Hx Hid. apply List.in_map_iff in Hx as (y & Hy & Hin).
    destruct (bool_decide_reflect (id y = sid)) as [Hys|Hys].
    + subst x. cbn [expiresAt activeUntil status pairCode callerNumber id].
      repeat split.
      * exists y. auto.
      * intros t Ht. unfold cleanupExpiredSessions. cbn [snd withSessions sessions].
        apply List.in_map_iff. eexists. split; [|apply List.in_map_iff; exists y; split;
          [reflexivity | exact Hin]].
        rewrite (bool_decide_eq_true_2 _ Hys).
        unfold isOverdue. cbn [expiresAt].
        replace (now + pairedExpiryMinutes cfg * 60 * 1000 <? t) with false
          by (symmetry; apply Z.ltb_ge; subst upto; lia).
        now rewrite andb_false_r.
    + subst x. contradiction.
  - intros x Hne. rewrite List.in_map_iff. split.
    + intros (y & Hy & Hin). destruct (bool_decide_reflect (id y = sid)) as [Hys|Hys].
      * subst x. cbn in Hne. contradiction.
      * now subst x.
    + intros Hin. exists x. split; [|exact Hin].
      now rewrite bool_decide_eq_false_2.
Qed.

End Extending.

Lemma code_counts_misses_witness :
  let cfg := Session.mkConfig 10 30 5 60 in
  let d := Session.mkDb [] [] ∅ in
  let st : gmap string TwilioCalls.CallData :=
    {[ "CA1"%string := TwilioCalls.mkCallData (Some "Ann"%string) 2 None ]} in
  let '(reply, (d', st')) :=
    TwilioCalls.code cfg st d 1000 1001 "CA1" "+15550001111" (str "hello") in
  TwilioCalls.attempts <$> st' !! "CA1"%string = Some (2 + 1)%Z /\
  d' = snd (Session.recordFailedAttempt cfg
              (snd (Session.checkRateLimit cfg d 1000 "+15550001111")) 1000 "+15550001111") /\
  Session.sessions d' = Session.sessions d /\
  ((2 <= 2)%Z -> TwilioCalls.hangsUp reply = true).
Proof.
  intros cfg d st.
  apply (code_counts_misses cfg d 1000 1001 "CA1" "+15550001111" (str "hello") st).
  - reflexivity.
  - vm_compute. exact I.
Defined.

Lemma extendSession_keeps_alive_witness :
  let cfg := Session.mkConfig 10 30 3 60 in
  let s := Session.mkSession "s1" "tab-1" "4827" Session.PAIRED 600000
             (Some "+15550001111"%string) (Some "Ann"%string) (Some "CA1"%string)
             (Some 600000%Z) in
  let s' := Session.mkSession "s1" "tab-1" "4827" Session.PAIRED (500000 + 30 * 60 * 1000)
              (Some "+15550001111"%string) (Some "Ann"%string) (Some "CA1"%string)
              (Some (500000 + 30 * 60 * 1000)%Z) in
  let d := Session.mkDb [s] [] ∅ in
  let d' := Session.withSessions d [s'] in
  let until := (500000 + 30 * 60 * 1000)%Z in
  (In s' (Session.sessions d') /\ Session.id s' = "s1"%string) /\
  map Session.id (Session.sessions d') = map Session.id (Session.sessions d) /\
  (forall x, In x (Session.sessions d') -> Session.id x = "s1"%string ->
     Session.expiresAt x = until /\ Session.activeUntil x = Some until /\
     (exists y, In y (Session.sessions d) /\ Session.id y = "s1"%string /\
                Session.status x = Session.status y /\
                Session.pairCode x = Session.pairCode y /\
                Session.callerNumber x = Session.callerNumber y) /\
     forall t, (t <= until)%Z ->
               In x (Session.sessions (snd (Session.cleanupExpiredSessions d' t)))) /\
  (forall x, Session.id x <> "s1"%string ->
             In x (Session.sessions d') <-> In x (Session.sessions d)).
Proof.
  intros cfg s s' d d' until.
  apply (extendSession_keeps_alive cfg d d' 500000 "s1" s').
  reflexivity.
Defined.
